(** * PDF signature extraction / validation and the certificate relay

    A shallow embedding of

    - the signature engine ([extractSignatures], [hexToBytes],
      [validateSignature], [validatePdfSignatures], [countSignatures]), and
    - the certificate relay worker ([isAllowedOrigin],
      [isValidCertificateUrl], the [fetch] handler),

    followed by the properties of these functions.

    Conventions.
    - A JavaScript string is the list of its UTF-16 code units ([jsstring]).
    - A byte of a [Uint8Array] is an [N] below 256.
    - A JavaScript number that the code uses as an integer (byte offsets,
      lengths, [parseInt] results of decimal digits) is a [Z]; this is exact
      below 2^53, far above the size of any buffer the engine can hold.
    - A [Date] is its time value in milliseconds, or [InvalidDate].
    - A thrown value is [thrown]; a computation that may throw returns
      [thrown + A]. *)

From Stdlib Require Import List String Ascii Bool Arith NArith ZArith Lia.
From Stdlib Require Import DecimalString Sorted.
Import ListNotations.

Set Warnings "-abstract-large-number".

(* ================================================================== *)
(** * JavaScript substrate *)
(* ================================================================== *)

Module JS.

Definition jsstring := list N.

(** The code units of an ASCII literal. *)
Fixpoint str (s : string) : jsstring :=
  match s with
  | EmptyString => []
  | String a r => N_of_ascii a :: str r
  end.

Fixpoint jseqb (a b : jsstring) : bool :=
  match a, b with
  | [], [] => true
  | x :: a', y :: b' => N.eqb x y && jseqb a' b'
  | _, _ => false
  end.

(** What [throw] carries: an [Error] object with its [message], or any
    other value. *)
Inductive thrown :=
| JsError (message : jsstring)
| JsOther.

(** ** Character classes of the regular expressions *)

Definition inRange (lo hi c : N) : bool := N.leb lo c && N.leb c hi.

Definition isDigit (c : N) : bool := inRange 48 57 c.

Definition isHexDigit (c : N) : bool :=
  isDigit c || inRange 65 70 c || inRange 97 102 c.

(** [\w] : [A-Za-z0-9_]. *)
Definition isWordChar (c : N) : bool :=
  inRange 65 90 c || inRange 97 122 c || isDigit c || N.eqb c 95.

(** [\s] : ECMAScript WhiteSpace and LineTerminator. *)
Definition isSpace (c : N) : bool :=
  inRange 9 13 c || N.eqb c 32 || N.eqb c 160 || N.eqb c 5760
  || inRange 8192 8202 c || N.eqb c 8232 || N.eqb c 8233 || N.eqb c 8239
  || N.eqb c 8287 || N.eqb c 12288 || N.eqb c 65279.

Definition toLowerAscii (c : N) : N :=
  if inRange 65 90 c then (c + 32)%N else c.

(** ** A backtracking matcher for the regular expressions of the sources

    Quantifiers only ever apply to a single character class in the
    sources, so [Star], [Plus] and [Times] take a class. *)

Inductive re :=
| Eps
| Chr (p : N -> bool)
| Seq (a b : re)
| Alt (a b : re)
| Star (p : N -> bool)
| Plus (p : N -> bool)
| Times (n : nat) (p : N -> bool)
| Group (r : re)
| WordB
| Bol
| Eol.

Record mstate := MState {
  rest : jsstring;          (* input still to be read *)
  pos : nat;                (* index of [rest] in the whole input *)
  prev : option N;          (* the code unit before [rest] *)
  caps : list jsstring      (* captures closed so far, in order *)
}.

Definition advance (c : N) (s : jsstring) (st : mstate) : mstate :=
  MState s (S (pos st)) (Some c) (caps st).

Definition orElse {A} (x : option A) (y : option A) : option A :=
  match x with Some _ => x | None => y end.

(** Greedy [p*]: the longest run first, shorter ones on backtracking. *)
Fixpoint starK (p : N -> bool) (s : jsstring) (st : mstate)
               (k : mstate -> option mstate) : option mstate :=
  match s with
  | c :: s' =>
      if p c then orElse (starK p s' (advance c s' st) k) (k st) else k st
  | [] => k st
  end.

Fixpoint timesK (n : nat) (p : N -> bool) (st : mstate)
                (k : mstate -> option mstate) : option mstate :=
  match n with
  | O => k st
  | S n' =>
      match rest st with
      | c :: s' => if p c then timesK n' p (advance c s' st) k else None
      | [] => None
      end
  end.

Definition wordBefore (st : mstate) : bool :=
  match prev st with Some c => isWordChar c | None => false end.

Definition wordAfter (st : mstate) : bool :=
  match rest st with c :: _ => isWordChar c | [] => false end.

Fixpoint matchK (r : re) (st : mstate)
                (k : mstate -> option mstate) : option mstate :=
  match r with
  | Eps => k st
  | Chr p =>
      match rest st with
      | c :: s' => if p c then k (advance c s' st) else None
      | [] => None
      end
  | Seq a b => matchK a st (fun st' => matchK b st' k)
  | Alt a b => orElse (matchK a st k) (matchK b st k)
  | Star p => starK p (rest st) st k
  | Plus p =>
      match rest st with
      | c :: s' =>
          if p c then let st' := advance c s' st in starK p s' st' k
          else None
      | [] => None
      end
  | Times n p => timesK n p st k
  | Group g =>
      matchK g st (fun st' =>
        k (MState (rest st') (pos st') (prev st')
                  (caps st' ++ [firstn (pos st' - pos st) (rest st)])))
  | WordB => if xorb (wordBefore st) (wordAfter st) then k st else None
  | Bol => match pos st with O => k st | S _ => None end
  | Eol => match rest st with [] => k st | _ :: _ => None end
  end.

(** A successful match: where it starts, where it ends, its captures. *)
Record rmatch := RMatch {
  m_index : nat;
  m_end : nat;
  m_groups : list jsstring
}.

Definition matchAt (r : re) (s : jsstring) (i : nat) (pv : option N)
  : option rmatch :=
  match matchK r (MState s i pv []) Some with
  | Some st => Some (RMatch i (pos st) (caps st))
  | None => None
  end.

(** Leftmost match at or after the current position. *)
Fixpoint searchFrom (r : re) (s : jsstring) (i : nat) (pv : option N)
  : option rmatch :=
  match matchAt r s i pv with
  | Some m => Some m
  | None =>
      match s with
      | [] => None
      | c :: s' => searchFrom r s' (S i) (Some c)
      end
  end.

(** [s.match(r)] for a regular expression without the [g] flag. *)
Definition search (r : re) (s : jsstring) : option rmatch :=
  searchFrom r s 0 None.

(** [r.test(s)] for a regular expression without the [g] flag. *)
Definition test (r : re) (s : jsstring) : bool :=
  match search r s with Some _ => true | None => false end.

(** The successive results of [r.exec(s)] for a regular expression with
    the [g] flag, until it answers [null]: after a match, the search
    resumes at the end of that match.  [skip] counts the code units of the
    last match that are still to be passed over.  (All matches of the
    global expression of the sources are non-empty.) *)
Fixpoint execAll (r : re) (s : jsstring) (i : nat) (pv : option N)
                 (skip : nat) : list rmatch :=
  match skip with
  | S k =>
      match s with
      | [] => []
      | c :: s' => execAll r s' (S i) (Some c) k
      end
  | O =>
      match matchAt r s i pv with
      | Some m =>
          m :: match s with
               | [] => []
               | c :: s' => execAll r s' (S i) (Some c) (m_end m - i - 1)
               end
      | None =>
          match s with
          | [] => []
          | c :: s' => execAll r s' (S i) (Some c) 0
          end
      end
  end.

(** Literal text, case-sensitive and case-insensitive ([i] flag). *)
Fixpoint lit (s : jsstring) : re :=
  match s with
  | [] => Eps
  | c :: s' => Seq (Chr (N.eqb c)) (lit s')
  end.

Fixpoint liti (s : jsstring) : re :=
  match s with
  | [] => Eps
  | c :: s' =>
      Seq (Chr (fun x => N.eqb (toLowerAscii x) (toLowerAscii c))) (liti s')
  end.

Fixpoint seqs (rs : list re) : re :=
  match rs with
  | [] => Eps
  | r :: rs' => Seq r (seqs rs')
  end.

(** ** Strings *)

(** [s.substring(a, b)] for [0 <= a <= b]. *)
Definition substring (s : jsstring) (a b : nat) : jsstring :=
  firstn (b - a) (skipn a s).

Fixpoint startsWith (s p : jsstring) : bool :=
  match p, s with
  | [], _ => true
  | c :: p', d :: s' => N.eqb c d && startsWith s' p'
  | _ :: _, [] => false
  end.

(** [s.includes(p)]. *)
Fixpoint includes (s p : jsstring) : bool :=
  startsWith s p ||
  match s with
  | [] => false
  | _ :: s' => includes s' p
  end.

(** ** Numbers *)

Definition digitVal (c : N) : Z := Z.of_N (c - 48).

(** [parseInt(s, 10)] on a non-empty run of decimal digits. *)
Definition parseInt10 (s : jsstring) : Z :=
  fold_left (fun acc c => (10 * acc + digitVal c)%Z) s 0%Z.

Definition hexVal (c : N) : N :=
  if isDigit c then (c - 48)%N
  else if inRange 65 70 c then (c - 55)%N
  else (c - 87)%N.

(** [parseInt(s, 16)] on a non-empty run of hexadecimal digits. *)
Definition parseInt16 (s : jsstring) : N :=
  fold_left (fun acc c => (16 * acc + hexVal c)%N) s 0%N.

(** ** Text encodings *)

(** [new TextDecoder('latin1')]: the label [latin1] names the
    windows-1252 decoder (WHATWG Encoding): one code unit per byte, the
    identity except on 0x80..0x9F. *)
Definition windows1252_high : list N :=
  [ 8364; 129; 8218; 402; 8222; 8230; 8224; 8225;
    710; 8240; 352; 8249; 338; 141; 381; 143;
    144; 8216; 8217; 8220; 8221; 8226; 8211; 8212;
    732; 8482; 353; 8250; 339; 157; 382; 376 ]%N.

Definition windows1252 (b : N) : N :=
  if inRange 128 159 b then nth (N.to_nat (b - 128)) windows1252_high b
  else b.

Definition decodeLatin1 (bytes : list N) : jsstring := map windows1252 bytes.

Definition hexDigitUpper (d : N) : N :=
  if N.ltb d 10 then (48 + d)%N else (55 + d)%N.

Definition hex2 (c : N) : jsstring :=
  [hexDigitUpper (c / 16); hexDigitUpper (c mod 16)].

(** The characters [escape] leaves alone: [A-Za-z0-9@*_+-./]. *)
Definition escapeUnreserved (c : N) : bool :=
  inRange 65 90 c || inRange 97 122 c || isDigit c
  || N.eqb c 64 || N.eqb c 42 || N.eqb c 95 || N.eqb c 43
  || N.eqb c 45 || N.eqb c 46 || N.eqb c 47.

(** [escape(s)]: [%XX] below 256, [%uXXXX] from 256 on. *)
Definition escapeChar (c : N) : jsstring :=
  (if escapeUnreserved c then [c]
   else if N.ltb c 256 then 37 :: hex2 c
   else 37 :: 117 :: hex2 (c / 256) ++ hex2 (c mod 256))%N.

Definition escape (s : jsstring) : jsstring := flat_map escapeChar s.

Definition URIError : thrown := JsError (str "URI malformed").

(** A [%XX] triple at the head of the input. *)
Definition percentOctet (s : jsstring) : option (N * jsstring) :=
  match s with
  | 37 :: h1 :: h2 :: r =>
      if isHexDigit h1 && isHexDigit h2
      then Some (16 * hexVal h1 + hexVal h2, r) else None
  | _ => None
  end%N.

(** [n] continuation octets [%XX] with top bits 10; their payload bits
    are accumulated onto [acc]. *)
Fixpoint continuation (n : nat) (acc : N) (s : jsstring)
  : option (N * jsstring) :=
  match n with
  | O => Some (acc, s)
  | S n' =>
      match percentOctet s with
      | Some (b, r) =>
          if inRange 128 191 b
          then continuation n' (64 * acc + (b - 128)) r
          else None
      | None => None
      end
  end%N.

(** Length of the UTF-8 sequence a leading octet announces (its number of
    leading one bits), the payload bits of that octet and the least code
    point the sequence may encode. *)
Definition utf8Lead (b : N) : option (nat * N * N) :=
  (if inRange 192 223 b then Some (2%nat, b - 192, 128)
   else if inRange 224 239 b then Some (3%nat, b - 224, 2048)
   else if inRange 240 247 b then Some (4%nat, b - 240, 65536)
   else None)%N.

Definition utf16 (v : N) : jsstring :=
  (if N.ltb v 65536 then [v]
   else [55296 + (v - 65536) / 1024; 56320 + (v - 65536) mod 1024])%N.

(** [decodeURIComponent(s)]; [fuel] bounds the number of characters
    still to be read. *)
Fixpoint decodeLoop (fuel : nat) (s : jsstring) : thrown + jsstring :=
  match fuel with
  | O => match s with [] => inr [] | _ :: _ => inl URIError end
  | S fuel' =>
      match s with
      | [] => inr []
      | c :: r =>
          if N.eqb c 37 then
            match percentOctet s with
            | None => inl URIError
            | Some (b, r1) =>
                if N.ltb b 128 then
                  match decodeLoop fuel' r1 with
                  | inr t => inr (b :: t)
                  | inl e => inl e
                  end
                else
                  match utf8Lead b with
                  | None => inl URIError
                  | Some (n, bits, least) =>
                      match continuation (n - 1) bits r1 with
                      | None => inl URIError
                      | Some (v, r2) =>
                          if N.ltb v least || inRange 55296 57343 v
                             || N.ltb 1114111 v
                          then inl URIError
                          else
                            match decodeLoop fuel' r2 with
                            | inr t => inr (utf16 v ++ t)
                            | inl e => inl e
                            end
                      end
                  end
            end
          else
            match decodeLoop fuel' r with
            | inr t => inr (c :: t)
            | inl e => inl e
            end
      end
  end.

Definition decodeURIComponent (s : jsstring) : thrown + jsstring :=
  decodeLoop (List.length s) s.

End JS.

Import JS.

(* ================================================================== *)
(** * The node-forge interface of the validator *)
(* ================================================================== *)

Module Forge.

Inductive Date :=
| TimeValue (ms : Z)
| InvalidDate.

(** [a > b] and [a < b] on dates compare time values; a comparison with
    an invalid date (time value NaN) is false. *)
Definition dateGt (a b : Date) : bool :=
  match a, b with
  | TimeValue x, TimeValue y => Z.ltb y x
  | _, _ => false
  end.

Definition dateLt (a b : Date) : bool :=
  match a, b with
  | TimeValue x, TimeValue y => Z.ltb x y
  | _, _ => false
  end.

(** One attribute of a distinguished name. *)
Record Attribute := {
  attr_type : jsstring;                 (* its OID *)
  attr_shortName : option jsstring;     (* CN, O, E, ... *)
  attr_value : jsstring
}.

Definition Name := list Attribute.

(** [name.getField(sn)] with a string argument: the first attribute
    whose short name is [sn]. *)
Definition getField (n : Name) (sn : jsstring) : option Attribute :=
  find (fun a => match attr_shortName a with
                 | Some s => jseqb s sn
                 | None => false
                 end) n.

Record Certificate := {
  subject : Name;
  issuer : Name;
  notBefore : Date;                     (* validity.notBefore *)
  notAfter : Date;                      (* validity.notAfter *)
  serialNumber : jsstring;
  siginfo_algorithmOid : option jsstring;
  signatureOid : option jsstring
}.

(** An entry of [rawCapture.authenticatedAttributes]. *)
Record RawAttribute := {
  raw_type : jsstring;
  raw_value : Date
}.

Record P7 := {
  certificates : option (list Certificate);
  authenticatedAttributes : option (list RawAttribute)
}.

(** [forge.pki.oids.signingTime]. *)
Definition oid_signingTime : jsstring := str "1.2.840.113549.1.9.5".

(** The library calls of [validateSignature] and the [Date] constructor
    on a string.  [isIssuer x y] is the call [x.isIssuer(y)]. *)
Record Library := {
  Asn1 : Type;
  fromDer : jsstring -> thrown + Asn1;
  messageFromAsn1 : Asn1 -> thrown + P7;
  isIssuer : Certificate -> Certificate -> thrown + bool;
  newDate : jsstring -> Date
}.

(** Every [Error] the library throws carries a message. *)
Record Messages (F : Library) : Prop := {
  fromDer_message :
    forall b m, fromDer F b = inl (JsError m) -> m <> [];
  messageFromAsn1_message :
    forall a m, messageFromAsn1 F a = inl (JsError m) -> m <> [];
  isIssuer_message :
    forall x y m, isIssuer F x y = inl (JsError m) -> m <> []
}.

(** node-forge documents [cert.isIssuer(parent)] as: true if this
    certificate's issuer matches the passed certificate's subject (no
    signature check).  Names match when they have the same attributes
    (type and value) in the same order. *)
Fixpoint nameMatches (i s : Name) : bool :=
  match i, s with
  | [], [] => true
  | a :: i', b :: s' =>
      jseqb (attr_type a) (attr_type b)
      && jseqb (attr_value a) (attr_value b)
      && nameMatches i' s'
  | _, _ => false
  end.

Definition forge_isIssuer (cert parent : Certificate) : thrown + bool :=
  inr (nameMatches (issuer cert) (subject parent)).

End Forge.

(* ================================================================== *)
(** * The signature engine *)
(* ================================================================== *)

Module Signature.

Import Forge.

Record ExtractedSignature := {
  index : Z;
  contents : list N;
  byteRange : list Z;
  reason : option jsstring;
  location : option jsstring;
  contactInfo : option jsstring;
  name : option jsstring;
  signingTime : option jsstring
}.

Inductive Coverage := full | partial | unknown.

Record Algorithms := {
  digest : jsstring;
  signature : jsstring
}.

(** [SignatureValidationResult], with a setter for each field the
    validator assigns. *)
Module Result.

Record t := Build {
  signatureIndex : Z;
  isValid : bool;
  signerName : jsstring;
  signerOrg : option jsstring;
  signerEmail : option jsstring;
  issuer : jsstring;
  issuerOrg : option jsstring;
  signatureDate : option Date;
  validFrom : Date;
  validTo : Date;
  isExpired : bool;
  isSelfSigned : bool;
  isTrusted : bool;
  algorithms : Algorithms;
  serialNumber : jsstring;
  reason : option jsstring;
  location : option jsstring;
  contactInfo : option jsstring;
  byteRange : option (list Z);
  coverageStatus : Coverage;
  errorMessage : option jsstring
}.

Definition set_isValid (v : bool) (r : t) : t :=
  Build (signatureIndex r) v (signerName r) (signerOrg r) (signerEmail r)
    (issuer r) (issuerOrg r) (signatureDate r) (validFrom r) (validTo r)
    (isExpired r) (isSelfSigned r) (isTrusted r) (algorithms r)
    (serialNumber r) (reason r) (location r) (contactInfo r) (byteRange r)
    (coverageStatus r) (errorMessage r).

Definition set_signerName (v : jsstring) (r : t) : t :=
  Build (signatureIndex r) (isValid r) v (signerOrg r) (signerEmail r)
    (issuer r) (issuerOrg r) (signatureDate r) (validFrom r) (validTo r)
    (isExpired r) (isSelfSigned r) (isTrusted r) (algorithms r)
    (serialNumber r) (reason r) (location r) (contactInfo r) (byteRange r)
    (coverageStatus r) (errorMessage r).

Definition set_signerOrg (v : option jsstring) (r : t) : t :=
  Build (signatureIndex r) (isValid r) (signerName r) v (signerEmail r)
    (issuer r) (issuerOrg r) (signatureDate r) (validFrom r) (validTo r)
    (isExpired r) (isSelfSigned r) (isTrusted r) (algorithms r)
    (serialNumber r) (reason r) (location r) (contactInfo r) (byteRange r)
    (coverageStatus r) (errorMessage r).

Definition set_signerEmail (v : option jsstring) (r : t) : t :=
  Build (signatureIndex r) (isValid r) (signerName r) (signerOrg r) v
    (issuer r) (issuerOrg r) (signatureDate r) (validFrom r) (validTo r)
    (isExpired r) (isSelfSigned r) (isTrusted r) (algorithms r)
    (serialNumber r) (reason r) (location r) (contactInfo r) (byteRange r)
    (coverageStatus r) (errorMessage r).

Definition set_issuer (v : jsstring) (r : t) : t :=
  Build (signatureIndex r) (isValid r) (signerName r) (signerOrg r)
    (signerEmail r) v (issuerOrg r) (signatureDate r) (validFrom r)
    (validTo r) (isExpired r) (isSelfSigned r) (isTrusted r)
    (algorithms r) (serialNumber r) (reason r) (location r)
    (contactInfo r) (byteRange r) (coverageStatus r) (errorMessage r).

Definition set_issuerOrg (v : option jsstring) (r : t) : t :=
  Build (signatureIndex r) (isValid r) (signerName r) (signerOrg r)
    (signerEmail r) (issuer r) v (signatureDate r) (validFrom r)
    (validTo r) (isExpired r) (isSelfSigned r) (isTrusted r)
    (algorithms r) (serialNumber r) (reason r) (location r)
    (contactInfo r) (byteRange r) (coverageStatus r) (errorMessage r).

Definition set_signatureDate (v : option Date) (r : t) : t :=
  Build (signatureIndex r) (isValid r) (signerName r) (signerOrg r)
    (signerEmail r) (issuer r) (issuerOrg r) v (validFrom r) (validTo r)
    (isExpired r) (isSelfSigned r) (isTrusted r) (algorithms r)
    (serialNumber r) (reason r) (location r) (contactInfo r) (byteRange r)
    (coverageStatus r) (errorMessage r).

Definition set_validFrom (v : Date) (r : t) : t :=
  Build (signatureIndex r) (isValid r) (signerName r) (signerOrg r)
    (signerEmail r) (issuer r) (issuerOrg r) (signatureDate r) v
    (validTo r) (isExpired r) (isSelfSigned r) (isTrusted r)
    (algorithms r) (serialNumber r) (reason r) (location r)
    (contactInfo r) (byteRange r) (coverageStatus r) (errorMessage r).

Definition set_validTo (v : Date) (r : t) : t :=
  Build (signatureIndex r) (isValid r) (signerName r) (signerOrg r)
    (signerEmail r) (issuer r) (issuerOrg r) (signatureDate r)
    (validFrom r) v (isExpired r) (isSelfSigned r) (isTrusted r)
    (algorithms r) (serialNumber r) (reason r) (location r)
    (contactInfo r) (byteRange r) (coverageStatus r) (errorMessage r).

Definition set_isExpired (v : bool) (r : t) : t :=
  Build (signatureIndex r) (isValid r) (signerName r) (signerOrg r)
    (signerEmail r) (issuer r) (issuerOrg r) (signatureDate r)
    (validFrom r) (validTo r) v (isSelfSigned r) (isTrusted r)
    (algorithms r) (serialNumber r) (reason r) (location r)
    (contactInfo r) (byteRange r) (coverageStatus r) (errorMessage r).

Definition set_isSelfSigned (v : bool) (r : t) : t :=
  Build (signatureIndex r) (isValid r) (signerName r) (signerOrg r)
    (signerEmail r) (issuer r) (issuerOrg r) (signatureDate r)
    (validFrom r) (validTo r) (isExpired r) v (isTrusted r) (algorithms r)
    (serialNumber r) (reason r) (location r) (contactInfo r) (byteRange r)
    (coverageStatus r) (errorMessage r).

Definition set_isTrusted (v : bool) (r : t) : t :=
  Build (signatureIndex r) (isValid r) (signerName r) (signerOrg r)
    (signerEmail r) (issuer r) (issuerOrg r) (signatureDate r)
    (validFrom r) (validTo r) (isExpired r) (isSelfSigned r) v
    (algorithms r) (serialNumber r) (reason r) (location r)
    (contactInfo r) (byteRange r) (coverageStatus r) (errorMessage r).

Definition set_algorithms (v : Algorithms) (r : t) : t :=
  Build (signatureIndex r) (isValid r) (signerName r) (signerOrg r)
    (signerEmail r) (issuer r) (issuerOrg r) (signatureDate r)
    (validFrom r) (validTo r) (isExpired r) (isSelfSigned r) (isTrusted r)
    v (serialNumber r) (reason r) (location r) (contactInfo r)
    (byteRange r) (coverageStatus r) (errorMessage r).

Definition set_serialNumber (v : jsstring) (r : t) : t :=
  Build (signatureIndex r) (isValid r) (signerName r) (signerOrg r)
    (signerEmail r) (issuer r) (issuerOrg r) (signatureDate r)
    (validFrom r) (validTo r) (isExpired r) (isSelfSigned r) (isTrusted r)
    (algorithms r) v (reason r) (location r) (contactInfo r) (byteRange r)
    (coverageStatus r) (errorMessage r).

Definition set_coverageStatus (v : Coverage) (r : t) : t :=
  Build (signatureIndex r) (isValid r) (signerName r) (signerOrg r)
    (signerEmail r) (issuer r) (issuerOrg r) (signatureDate r)
    (validFrom r) (validTo r) (isExpired r) (isSelfSigned r) (isTrusted r)
    (algorithms r) (serialNumber r) (reason r) (location r)
    (contactInfo r) (byteRange r) v (errorMessage r).

Definition set_errorMessage (v : option jsstring) (r : t) : t :=
  Build (signatureIndex r) (isValid r) (signerName r) (signerOrg r)
    (signerEmail r) (issuer r) (issuerOrg r) (signatureDate r)
    (validFrom r) (validTo r) (isExpired r) (isSelfSigned r) (isTrusted r)
    (algorithms r) (serialNumber r) (reason r) (location r)
    (contactInfo r) (byteRange r) (coverageStatus r) v.

End Result.

(** ** hexToBytes *)

(** [bytes[k] = v] on a typed array: ignored when [k] is out of range. *)
Fixpoint store (bytes : list N) (k : nat) (v : N) : list N :=
  match bytes, k with
  | [], _ => []
  | _ :: t, O => v :: t
  | h :: t, S k' => h :: store t k' v
  end.

(** The filling loop [for (i = 0; i < hex.length; i += 2)], with
    [k = i / 2]; [hex.substr(i, 2)] is the next two characters, or the
    last one alone. *)
Fixpoint fillBytes (hex : jsstring) (k : nat) (bytes : list N) : list N :=
  match hex with
  | [] => bytes
  | [a] => store bytes k (parseInt16 [a])
  | a :: b :: r => fillBytes r (S k) (store bytes k (parseInt16 [a; b]))
  end.

(** The loop [while (actualLength > 0 && bytes[actualLength - 1] === 0)
    actualLength--], started at [n]. *)
Fixpoint actualLength (bytes : list N) (n : nat) : nat :=
  match n with
  | O => O
  | S m => if N.eqb (nth m bytes 0%N) 0 then actualLength bytes m else n
  end.

(** The stripping step: [bytes.slice(0, actualLength)]. *)
Definition stripTrailingZeros (bytes : list N) : list N :=
  firstn (actualLength bytes (List.length bytes)) bytes.

(** [hex] is a run of hexadecimal digits (the Contents pattern admits
    nothing else).  [new Uint8Array(hex.length / 2)] converts its
    argument with ToIndex, which drops the fraction of an odd length's
    half: the array has [hex.length / 2] rounded down zero bytes. *)
Definition hexToBytes (hex : jsstring) : list N :=
  let bytes := repeat 0%N (Nat.div (List.length hex) 2) in
  stripTrailingZeros (fillBytes hex 0 bytes).

(** ** extractSignatures *)

Definition notRParen (c : N) : bool := negb (N.eqb c 41).

(** [/\/Type\s*\/Sig\b/g] *)
Definition sigRegex : re :=
  seqs [lit (str "/Type"); Star isSpace; lit (str "/Sig"); WordB].

(** [/\/ByteRange\s*\[\s*(\d+)\s+(\d+)\s+(\d+)\s+(\d+)\s*\]/] *)
Definition byteRangeRegex : re :=
  seqs [lit (str "/ByteRange"); Star isSpace; lit (str "["); Star isSpace;
        Group (Plus isDigit); Plus isSpace; Group (Plus isDigit);
        Plus isSpace; Group (Plus isDigit); Plus isSpace;
        Group (Plus isDigit); Star isSpace; lit (str "]")].

(** [/\/Contents\s*<([0-9A-Fa-f]+)>/] *)
Definition contentsRegex : re :=
  seqs [lit (str "/Contents"); Star isSpace; lit (str "<");
        Group (Plus isHexDigit); lit (str ">")].

(** The text-field patterns, for KEY among Reason, Location, ContactInfo
    and Name: slash KEY, white space if any, an opening parenthesis, the
    captured run of characters other than a closing parenthesis, and a
    closing parenthesis. *)
Definition textRegex (key : string) : re :=
  seqs [lit (str "/"); lit (str key); Star isSpace; lit (str "(");
        Group (Star notRParen); lit (str ")")].

(** [/\/M\s*\(D:(\d{4})(\d{2})(\d{2})(\d{2})(\d{2})(\d{2})/] *)
Definition timeRegex : re :=
  seqs [lit (str "/M"); Star isSpace; lit (str "(D:");
        Group (Times 4 isDigit); Group (Times 2 isDigit);
        Group (Times 2 isDigit); Group (Times 2 isDigit);
        Group (Times 2 isDigit); Group (Times 2 isDigit)].

(** [m[i]] for [i >= 1]. *)
Definition group (m : rmatch) (i : nat) : jsstring :=
  nth (i - 1) (m_groups m) [].

(** [m ? decodeURIComponent(escape(m[1])) : undefined] *)
Definition decodeText (m : option rmatch) : thrown + option jsstring :=
  match m with
  | None => inr None
  | Some m =>
      match decodeURIComponent (escape (group m 1)) with
      | inr t => inr (Some t)
      | inl e => inl e
      end
  end.

(** The signing time template string. *)
Definition formatTime (m : rmatch) : jsstring :=
  group m 1 ++ str "-" ++ group m 2 ++ str "-" ++ group m 3 ++ str "T"
  ++ group m 4 ++ str ":" ++ group m 5 ++ str ":" ++ group m 6.

(** How a [try] block ends: it runs to its end (or leaves by [continue]
    or [return]), or it throws. *)
Inductive completion :=
| Normal
| Threw (e : thrown).

(** The variables of the scanning loop, and what [console.warn] was
    given: the value of [sigIndex] at the time, and the thrown value. *)
Record Extraction := {
  signatures : list ExtractedSignature;
  sigIndex : Z;
  warnings : list (Z * thrown)
}.

(** The [catch] clause of the loop body. *)
Definition warn (st : Extraction) (e : thrown) : Extraction :=
  {| signatures := signatures st;
     sigIndex := sigIndex st;
     warnings := warnings st ++ [(sigIndex st, e)] |}.

(** The window around a marker occurrence in which the fields are
    looked for. *)
Definition searchContext (pdfString : jsstring) (sigMatch : rmatch)
  : jsstring :=
  let searchStart := Nat.max 0 (m_index sigMatch - 5000) in
  let searchEnd :=
    Nat.min (List.length pdfString) (m_index sigMatch + 10000) in
  substring pdfString searchStart searchEnd.

(** The [try] block of the loop body, for the marker occurrence
    [sigMatch].  The object literal given to [push] evaluates its
    properties in order: [sigIndex++] first, then the four text fields. *)
Definition loopBody (pdfString : jsstring) (st : Extraction)
                    (sigMatch : rmatch) : completion * Extraction :=
  let context := searchContext pdfString sigMatch in
  match search byteRangeRegex context with
  | None => (Normal, st)                                (* continue *)
  | Some byteRangeMatch =>
      let byteRange :=
        [parseInt10 (group byteRangeMatch 1);
         parseInt10 (group byteRangeMatch 2);
         parseInt10 (group byteRangeMatch 3);
         parseInt10 (group byteRangeMatch 4)] in
      match search contentsRegex context with
      | None => (Normal, st)                            (* continue *)
      | Some contentsMatch =>
          let hexContents := group contentsMatch 1 in
          let contentsBytes := hexToBytes hexContents in
          let reasonMatch := search (textRegex "Reason") context in
          let locationMatch := search (textRegex "Location") context in
          let contactMatch := search (textRegex "ContactInfo") context in
          let nameMatch := search (textRegex "Name") context in
          let timeMatch := search timeRegex context in
          let signingTime := option_map formatTime timeMatch in
          let index := sigIndex st in
          let st := {| signatures := signatures st;
                       sigIndex := (sigIndex st + 1)%Z;
                       warnings := warnings st |} in
          match decodeText reasonMatch with
          | inl e => (Threw e, st)
          | inr reason =>
          match decodeText locationMatch with
          | inl e => (Threw e, st)
          | inr location =>
          match decodeText contactMatch with
          | inl e => (Threw e, st)
          | inr contactInfo =>
          match decodeText nameMatch with
          | inl e => (Threw e, st)
          | inr name =>
              (Normal,
               {| signatures :=
                    signatures st ++
                    [Build_ExtractedSignature index contentsBytes
                       byteRange reason location contactInfo name
                       signingTime];
                  sigIndex := sigIndex st;
                  warnings := warnings st |})
          end end end end
      end
  end.

(** One turn of the [while] loop: the [try] block and its [catch]. *)
Definition processMatch (pdfString : jsstring) (st : Extraction)
                        (sigMatch : rmatch) : Extraction :=
  match loopBody pdfString st sigMatch with
  | (Normal, st') => st'
  | (Threw e, st') => warn st' e
  end.

Definition markers (pdfString : jsstring) : list rmatch :=
  execAll sigRegex pdfString 0 None 0.

(** The scan, with its diagnostics. *)
Definition scan (pdfBytes : list N) : Extraction :=
  let pdfString := decodeLatin1 pdfBytes in
  fold_left (processMatch pdfString) (markers pdfString)
            {| signatures := []; sigIndex := 0%Z; warnings := [] |}.

Definition extractSignatures (pdfBytes : list N)
  : list ExtractedSignature :=
  signatures (scan pdfBytes).

Definition countSignatures (pdfBytes : list N) : Z :=
  Z.of_nat (List.length (extractSignatures pdfBytes)).

(** ** validateSignature *)

(** [table[oid] || oid || 'Unknown'] *)
Fixpoint lookup (table : list (jsstring * jsstring)) (oid : jsstring)
  : option jsstring :=
  match table with
  | [] => None
  | (k, v) :: t => if jseqb k oid then Some v else lookup t oid
  end.

Definition algorithmName (table : list (jsstring * jsstring))
                         (oid : jsstring) : jsstring :=
  match lookup table oid with
  | Some v => v
  | None => match oid with [] => str "Unknown" | _ :: _ => oid end
  end.

Definition digestAlgorithms : list (jsstring * jsstring) :=
  [ (str "1.2.840.113549.2.5", str "MD5");
    (str "1.3.14.3.2.26", str "SHA-1");
    (str "2.16.840.1.101.3.4.2.1", str "SHA-256");
    (str "2.16.840.1.101.3.4.2.2", str "SHA-384");
    (str "2.16.840.1.101.3.4.2.3", str "SHA-512");
    (str "2.16.840.1.101.3.4.2.4", str "SHA-224") ].

Definition signatureAlgorithms : list (jsstring * jsstring) :=
  [ (str "1.2.840.113549.1.1.1", str "RSA");
    (str "1.2.840.113549.1.1.5", str "RSA with SHA-1");
    (str "1.2.840.113549.1.1.11", str "RSA with SHA-256");
    (str "1.2.840.113549.1.1.12", str "RSA with SHA-384");
    (str "1.2.840.113549.1.1.13", str "RSA with SHA-512");
    (str "1.2.840.10045.2.1", str "ECDSA");
    (str "1.2.840.10045.4.1", str "ECDSA with SHA-1");
    (str "1.2.840.10045.4.3.2", str "ECDSA with SHA-256");
    (str "1.2.840.10045.4.3.3", str "ECDSA with SHA-384");
    (str "1.2.840.10045.4.3.4", str "ECDSA with SHA-512") ].

Definition getDigestAlgorithmName : jsstring -> jsstring :=
  algorithmName digestAlgorithms.

Definition getSignatureAlgorithmName : jsstring -> jsstring :=
  algorithmName signatureAlgorithms.

(** [x || ''] on an optional string. *)
Definition orEmpty (x : option jsstring) : jsstring :=
  match x with Some v => v | None => [] end.

Definition defaultResult (signature : ExtractedSignature) : Result.t :=
  {| Result.signatureIndex := index signature;
     Result.isValid := false;
     Result.signerName := str "Unknown";
     Result.signerOrg := None;
     Result.signerEmail := None;
     Result.issuer := str "Unknown";
     Result.issuerOrg := None;
     Result.signatureDate := None;
     Result.validFrom := TimeValue 0;
     Result.validTo := TimeValue 0;
     Result.isExpired := false;
     Result.isSelfSigned := false;
     Result.isTrusted := false;
     Result.algorithms :=
       {| digest := str "Unknown"; signature := str "Unknown" |};
     Result.serialNumber := [];
     Result.reason := reason signature;
     Result.location := location signature;
     Result.contactInfo := contactInfo signature;
     Result.byteRange := Some (byteRange signature);
     Result.coverageStatus := unknown;
     Result.errorMessage := None |}.

Section Validator.

Variable F : Library.

(** The [for ... of] loop over [p7.certificates]. *)
Fixpoint chainLoop (trustedCert : Certificate) (certs : list Certificate)
  : thrown + bool :=
  match certs with
  | [] => inr false
  | cert :: certs' =>
      match isIssuer F trustedCert cert with
      | inl e => inl e
      | inr true => inr true
      | inr false =>
          if jseqb (Forge.serialNumber cert) (Forge.serialNumber trustedCert)
          then inr true
          else chainLoop trustedCert certs'
      end
  end.

(** The body of the inner [try] of the trust check. *)
Definition trustEvaluation (trustedCert signerCert : Certificate)
                           (certs : list Certificate) : thrown + bool :=
  match isIssuer F trustedCert signerCert with
  | inl e => inl e
  | inr isTrustedIssuer =>
      let isSameCert :=
        jseqb (Forge.serialNumber signerCert)
              (Forge.serialNumber trustedCert) in
      match chainLoop trustedCert certs with
      | inl e => inl e
      | inr chainTrusted =>
          inr (isTrustedIssuer || isSameCert || chainTrusted)
      end
  end.

(** The search for a signing-time attribute. *)
Definition signingTimeAttribute (p7 : P7) : option Date :=
  match authenticatedAttributes p7 with
  | None => None
  | Some attrs =>
      option_map raw_value
        (find (fun a => jseqb (raw_type a) oid_signingTime) attrs)
  end.

Definition coverage (signature : ExtractedSignature) (pdfBytes : list N)
                    (result : Result.t) : Result.t :=
  match byteRange signature with
  | [start1; len1; start2; len2] =>
      let totalCovered := (len1 + len2)%Z in
      let expectedEnd := (start2 + len2)%Z in
      if Z.eqb expectedEnd (Z.of_nat (List.length pdfBytes))
      then Result.set_coverageStatus full result
      else if Z.ltb expectedEnd (Z.of_nat (List.length pdfBytes))
      then Result.set_coverageStatus partial result
      else result
  | _ => result
  end.

(** The [try] block, on the result object as it stands; the assignments it
    made before a throw stay.  [String.fromCharCode.apply] turns the
    bytes of [contents] into the code units of the binary string. *)
Definition tryBlock (now : Date) (signature : ExtractedSignature)
                    (pdfBytes : list N) (trustedCert : option Certificate)
                    (result : Result.t) : completion * Result.t :=
  let binaryString : jsstring := contents signature in
  match fromDer F binaryString with
  | inl e => (Threw e, result)
  | inr asn1 =>
  match messageFromAsn1 F asn1 with
  | inl e => (Threw e, result)
  | inr p7 =>
  match certificates p7 with
  | None | Some [] =>
      (Normal,
       Result.set_errorMessage
         (Some (str "No certificates found in signature")) result)
  | Some ((signerCert :: _) as certs) =>
      let subjectCN := getField (subject signerCert) (str "CN") in
      let subjectO := getField (subject signerCert) (str "O") in
      let subjectE :=
        match getField (subject signerCert) (str "E") with
        | Some a => Some a
        | None => getField (subject signerCert) (str "emailAddress")
        end in
      let issuerCN := getField (Forge.issuer signerCert) (str "CN") in
      let issuerO := getField (Forge.issuer signerCert) (str "O") in
      let result :=
        Result.set_signerName
          (match subjectCN with
           | Some a => attr_value a
           | None => str "Unknown"
           end) result in
      let result :=
        Result.set_signerOrg (option_map attr_value subjectO) result in
      let result :=
        Result.set_signerEmail (option_map attr_value subjectE) result in
      let result :=
        Result.set_issuer
          (match issuerCN with
           | Some a => attr_value a
           | None => str "Unknown"
           end) result in
      let result :=
        Result.set_issuerOrg (option_map attr_value issuerO) result in
      let result := Result.set_validFrom (notBefore signerCert) result in
      let result := Result.set_validTo (notAfter signerCert) result in
      let result :=
        Result.set_serialNumber (Forge.serialNumber signerCert) result in
      let result :=
        Result.set_isExpired
          (dateGt now (Result.validTo result)
           || dateLt now (Result.validFrom result)) result in
      match isIssuer F signerCert signerCert with
      | inl e => (Threw e, result)
      | inr selfSigned =>
      let result := Result.set_isSelfSigned selfSigned result in
      let result :=
        match trustedCert with
        | Some trustedCert =>
            match trustEvaluation trustedCert signerCert certs with
            | inr trusted => Result.set_isTrusted trusted result
            | inl _ => Result.set_isTrusted false result
            end
        | None => result
        end in
      let result :=
        Result.set_algorithms
          {| digest :=
               getDigestAlgorithmName
                 (orEmpty (siginfo_algorithmOid signerCert));
             signature :=
               getSignatureAlgorithmName
                 (orEmpty (signatureOid signerCert)) |} result in
      let result :=
        match signingTime signature with
        | Some (c :: t) =>
            Result.set_signatureDate (Some (newDate F (c :: t))) result
        | _ =>
            match signingTimeAttribute p7 with
            | Some d => Result.set_signatureDate (Some d) result
            | None => result
            end
        end in
      let result := coverage signature pdfBytes result in
      (Normal, Result.set_isValid true result)
      end
  end end end.

(** [now] is the value of [new Date()] in this call. *)
Definition validateSignature (now : Date) (signature : ExtractedSignature)
                             (pdfBytes : list N)
                             (trustedCert : option Certificate)
  : Result.t :=
  let result := defaultResult signature in
  match tryBlock now signature pdfBytes trustedCert result with
  | (Normal, result) => result
  | (Threw e, result) =>
      Result.set_errorMessage
        (Some (match e with
               | JsError message => message
               | JsOther => str "Failed to parse signature"
               end)) result
  end.

(** [signatures.map(sig => validateSignature(sig, pdfBytes, trustedCert))];
    [clock i] is the time the [i]-th call reads.  The value is the one the
    returned promise resolves to. *)
Fixpoint mapValidate (clock : nat -> Date) (i : nat)
                     (signatures : list ExtractedSignature)
                     (pdfBytes : list N) (trustedCert : option Certificate)
  : list Result.t :=
  match signatures with
  | [] => []
  | sig :: rest =>
      validateSignature (clock i) sig pdfBytes trustedCert
      :: mapValidate clock (S i) rest pdfBytes trustedCert
  end.

Definition validatePdfSignatures (clock : nat -> Date) (pdfBytes : list N)
                                 (trustedCert : option Certificate)
  : list Result.t :=
  let signatures := extractSignatures pdfBytes in
  mapValidate clock 0 signatures pdfBytes trustedCert.

End Validator.

End Signature.

(* ================================================================== *)
(** * The certificate relay worker *)
(* ================================================================== *)

Module Relay.

(** [/\.crt$/i], [/\.cer$/i], [/\.pem$/i], [/\/certs\//i], [/\/ocsp/i],
    [/\/crl/i], [/caIssuers/i] *)
Definition ALLOWED_PATTERNS : list re :=
  [ Seq (liti (str ".crt")) Eol;
    Seq (liti (str ".cer")) Eol;
    Seq (liti (str ".pem")) Eol;
    liti (str "/certs/");
    liti (str "/ocsp");
    liti (str "/crl");
    liti (str "caIssuers") ].

Definition ALLOWED_ORIGINS : list jsstring :=
  [ str "https://www.Wrapdf.com"; str "https://Wrapdf.com" ].

Definition BLOCKED_DOMAINS : list jsstring :=
  [ str "localhost"; str "127.0.0.1"; str "0.0.0.0" ].

(** [s.replace(/\/$/, '')]: a final slash is removed. *)
Fixpoint dropFinalSlash (s : jsstring) : jsstring :=
  match s with
  | [] => []
  | [c] => if N.eqb c 47 then [] else [c]
  | c :: s' => c :: dropFinalSlash s'
  end.

(** [origin] is [request.headers.get('Origin')]; [null] and the empty
    string are falsy. *)
Definition isAllowedOrigin (origin : option jsstring) : bool :=
  match origin with
  | None | Some [] => false
  | Some origin =>
      existsb (fun allowed => startsWith origin (dropFinalSlash allowed))
              ALLOWED_ORIGINS
  end.

(** What the validation reads of a parsed [URL]. *)
Record URL := {
  protocol : jsstring;
  hostname : jsstring
}.

(** [/^10\./], [/^172\.(1[6-9]|2[0-9]|3[0-1])\./], [/^192\.168\./] *)
Definition private10 : re := Seq Bol (lit (str "10.")).

Definition private172 : re :=
  seqs [Bol; lit (str "172.");
        Group (Alt (Seq (Chr (N.eqb 49)) (Chr (inRange 54 57)))
              (Alt (Seq (Chr (N.eqb 50)) (Chr (inRange 48 57)))
                   (Seq (Chr (N.eqb 51)) (Chr (inRange 48 49)))));
        lit (str ".")].

Definition private192 : re := Seq Bol (lit (str "192.168.")).

(** The body of an upstream response and what [fetch] resolves to. *)
Record Upstream := {
  ok : bool;
  status : Z;
  statusText : jsstring;
  contentType : option jsstring;      (* headers.get('Content-Type') *)
  arrayBuffer : thrown + list N
}.

Inductive JsonValue :=
| JString (s : jsstring)
| JNumber (z : Z).

Inductive Body :=
| NoBody
| TextBody (s : jsstring)
| JsonBody (fields : list (jsstring * JsonValue))   (* JSON.stringify *)
| BytesBody (b : list N).

Record Response := {
  r_status : Z;
  r_headers : list (jsstring * jsstring);
  r_body : Body
}.

Record Request := {
  method : jsstring;
  origin : option jsstring;           (* headers.get('Origin') *)
  urlParam : option jsstring          (* searchParams.get('url') *)
}.

Definition corsHeaders (origin : option jsstring)
  : list (jsstring * jsstring) :=
  [ (str "Access-Control-Allow-Origin",
     match origin with
     | None | Some [] => str "*"
     | Some o => o
     end);
    (str "Access-Control-Allow-Methods", str "GET, OPTIONS");
    (str "Access-Control-Allow-Headers", str "Content-Type");
    (str "Access-Control-Max-Age", str "86400") ].

Definition handleOptions (request : Request) : Response :=
  {| r_status := 204;
     r_headers := corsHeaders (origin request);
     r_body := NoBody |}.

Definition jsonHeader : list (jsstring * jsstring) :=
  [ (str "Content-Type", str "application/json") ].

Definition decimal (n : nat) : jsstring :=
  str (DecimalString.NilZero.string_of_uint (Nat.to_uint n)).

Section Worker.

(** [new URL(s)]: the parsed URL, or [None] when the constructor throws. *)
Variable parseURL : jsstring -> option URL.

(** The network: what [fetch(url, ...)] resolves to, or what it throws. *)
Variable network : jsstring -> thrown + Upstream.

Definition isValidCertificateUrl (urlString : jsstring) : bool :=
  match parseURL urlString with
  | None => false
  | Some url =>
      if negb (existsb (jseqb (protocol url)) [str "http:"; str "https:"])
      then false
      else if existsb (fun domain => includes (hostname url) domain)
                      BLOCKED_DOMAINS
      then false
      else
        let hostname := hostname url in
        if test private10 hostname || test private172 hostname
           || test private192 hostname
        then false
        else existsb (fun pattern => test pattern urlString)
                     ALLOWED_PATTERNS
  end.

(** The handler: its response, and the URLs it asked the network for.
    An upstream status is one [fetch] delivers (200 to 599), which the
    [Response] constructor accepts. *)
Definition fetch (request : Request) : Response * list jsstring :=
  let origin := origin request in
  if jseqb (method request) (str "OPTIONS") then
    (handleOptions request, [])
  else if negb (isAllowedOrigin origin) then
    ({| r_status := 403;
        r_headers := jsonHeader;
        r_body :=
          JsonBody
            [ (str "error", JString (str "Forbidden"));
              (str "message",
               JString
                 (str "This proxy only accepts requests from Wrapdf.com"))
            ] |}, [])
  else if negb (jseqb (method request) (str "GET")) then
    ({| r_status := 405;
        r_headers := corsHeaders origin;
        r_body := TextBody (str "Method not allowed") |}, [])
  else
    match urlParam request with
    | None | Some [] =>
        ({| r_status := 400;
            r_headers := corsHeaders origin ++ jsonHeader;
            r_body :=
              JsonBody
                [ (str "error", JString (str "Missing url parameter"));
                  (str "usage",
                   JString (str "GET /?url=<certificate_url>")) ] |}, [])
    | Some targetUrl =>
        if negb (isValidCertificateUrl targetUrl) then
          ({| r_status := 403;
              r_headers := corsHeaders origin ++ jsonHeader;
              r_body :=
                JsonBody
                  [ (str "error",
                     JString (str "Invalid or disallowed URL"));
                    (str "message",
                     JString
                       (str
"Only certificate-related URLs are allowed "
                        ++ str "(" ++
                        str "*.crt, *.cer, *.pem, /certs/, /ocsp, /crl)"))
                  ] |}, [])
        else
          let proxyError (e : thrown) :=
            {| r_status := 500;
               r_headers := corsHeaders origin ++ jsonHeader;
               r_body :=
                 JsonBody
                   ((str "error", JString (str "Proxy error"))
                    :: match e with
                       | JsError m => [(str "message", JString m)]
                       | JsOther => []
                       end) |} in
          match network targetUrl with
          | inl e => (proxyError e, [targetUrl])
          | inr response =>
              if negb (ok response) then
                ({| r_status := status response;
                    r_headers := corsHeaders origin ++ jsonHeader;
                    r_body :=
                      JsonBody
                        [ (str "error",
                           JString (str "Failed to fetch certificate"));
                          (str "status", JNumber (status response));
                          (str "statusText",
                           JString (statusText response)) ] |},
                 [targetUrl])
              else
                match arrayBuffer response with
                | inl e => (proxyError e, [targetUrl])
                | inr certData =>
                    ({| r_status := 200;
                        r_headers :=
                          corsHeaders origin ++
                          [ (str "Content-Type",
                             match contentType response with
                             | Some (c :: t) => c :: t
                             | _ => str "application/x-x509-ca-cert"
                             end);
                            (str "Content-Length",
                             decimal (List.length certData));
                            (str "Cache-Control",
                             str "public, max-age=86400") ];
                        r_body := BytesBody certData |}, [targetUrl])
                end
          end
    end.

End Worker.

End Relay.

(* ================================================================== *)
(** * Sample data *)
(* ================================================================== *)

Module Examples.

Import Forge Signature.

Definition attribute (oid shortName value : string) : Attribute :=
  {| attr_type := str oid;
     attr_shortName := Some (str shortName);
     attr_value := str value |}.

Definition rootName : Name :=
  [ attribute "2.5.4.3" "CN" "Example Root CA";
    attribute "2.5.4.10" "O" "Example Trust" ].

Definition aliceName : Name :=
  [ attribute "2.5.4.3" "CN" "Alice";
    attribute "2.5.4.10" "O" "Example Org" ].

Definition sha256WithRSA : option jsstring :=
  Some (str "1.2.840.113549.1.1.11").

(** A self-signed root and a certificate it issued to Alice. *)
Definition rootCert : Certificate :=
  {| subject := rootName;
     issuer := rootName;
     notBefore := TimeValue 1500000000000;
     notAfter := TimeValue 2000000000000;
     serialNumber := str "01";
     siginfo_algorithmOid := sha256WithRSA;
     signatureOid := sha256WithRSA |}.

Definition aliceCert : Certificate :=
  {| subject := aliceName;
     issuer := rootName;
     notBefore := TimeValue 1600000000000;
     notAfter := TimeValue 1700000000000;
     serialNumber := str "02";
     siginfo_algorithmOid := sha256WithRSA;
     signatureOid := sha256WithRSA |}.

Definition derError : thrown := JsError (str "Too few bytes to parse DER.").

(** A stand-in for the library: a payload that starts with the SEQUENCE
    tag decodes to a signed-data message that embeds [chain]; any other
    payload is refused.  [isIssuer] is the library's. *)
Definition library (chain : list Certificate) : Library :=
  {| Asn1 := jsstring;
     fromDer := fun b =>
       match b with
       | tag :: _ => if N.eqb tag 48 then inr b else inl derError
       | [] => inl derError
       end;
     messageFromAsn1 := fun _ =>
       inr {| certificates := Some chain;
              authenticatedAttributes := None |};
     isIssuer := forge_isIssuer;
     newDate := fun _ => InvalidDate |}.

Definition signatureWith (payload : list N) (range : list Z)
  : ExtractedSignature :=
  {| index := 0;
     contents := payload;
     byteRange := range;
     reason := None;
     location := None;
     contactInfo := None;
     name := None;
     signingTime := None |}.

Definition goodPayload : list N := [48; 130; 1; 10]%N.
Definition badPayload : list N := [255; 1]%N.

Definition document250 : list N := repeat 0%N 250.

Definition midTime : Date := TimeValue 1650000000000.

(** Two signature dictionaries next to each other, the first without a
    byte range. *)
Definition closeDictionaries : list N :=
  str "<< /Type /Sig /Contents <AB> >> << /Type /Sig /ByteRange [0 1 2 3] /Contents <CD> >>".

(** The same two dictionaries, further apart than the search window. *)
Definition farDictionaries : list N :=
  str "<< /Type /Sig /Contents <AB> >>" ++ repeat 32%N 10000
  ++ str "<< /Type /Sig /ByteRange [0 1 2 3] /Contents <CD> >>".

(** A dictionary whose reason is the single byte 0xE9 (not UTF-8),
    followed at a distance by a well-formed one. *)
Definition undecodableReason : list N :=
  str "<< /Type /Sig /ByteRange [0 1 2 3] /Contents <AB> /Reason ("
  ++ [233%N] ++ str ") >>" ++ repeat 32%N 6000
  ++ str "<< /Type /Sig /ByteRange [4 5 6 7] /Contents <CD> >>".

(** A payload of three hexadecimal digits. *)
Definition oddContents : list N :=
  str "<< /Type /Sig /ByteRange [0 10 20 30] /Contents <ABC> >>".

Definition noSignature : list N :=
  str "%PDF-1.7 1 0 obj << /Type /Catalog >> endobj".

Definition emptyExtraction : Extraction :=
  {| signatures := []; sigIndex := 0; warnings := [] |}.

(** What [new URL] answers on the sample addresses. *)
Definition parseSample (s : jsstring) : option Relay.URL :=
  if jseqb s (str "http://127.0.0.2/ca.crt") then
    Some {| Relay.protocol := str "http:";
            Relay.hostname := str "127.0.0.2" |}
  else if jseqb s (str "http://192.168.1.1/ca.crt") then
    Some {| Relay.protocol := str "http:";
            Relay.hostname := str "192.168.1.1" |}
  else if jseqb s (str "https://ca.example.org/certs/root.crt") then
    Some {| Relay.protocol := str "https:";
            Relay.hostname := str "ca.example.org" |}
  else None.

Definition networkSample (url : jsstring) : thrown + Relay.Upstream :=
  inr {| Relay.ok := true;
         Relay.status := 200;
         Relay.statusText := str "OK";
         Relay.contentType := None;
         Relay.arrayBuffer := inr [48; 130; 1; 10]%N |}.

Definition getRequest (url : jsstring) : Relay.Request :=
  {| Relay.method := str "GET";
     Relay.origin := Some (str "https://Wrapdf.com");
     Relay.urlParam := Some url |}.

End Examples.

(* ================================================================== *)
(** * Notions used in the statements *)
(* ================================================================== *)

Module Notions.

Import Signature.

(** Both required fields are found in the window of a marker. *)
Definition hasFields (pdfString : jsstring) (sigMatch : rmatch) : bool :=
  match search byteRangeRegex (searchContext pdfString sigMatch),
        search contentsRegex (searchContext pdfString sigMatch) with
  | Some _, Some _ => true
  | _, _ => false
  end.

(** The state after [sigIndex++]. *)
Definition bumped (st : Extraction) : Extraction :=
  {| signatures := signatures st;
     sigIndex := (sigIndex st + 1)%Z;
     warnings := warnings st |}.

(** The state after [sigIndex++] and the [push] of [sig]. *)
Definition pushed (st : Extraction) (sig : ExtractedSignature)
  : Extraction :=
  {| signatures := signatures st ++ [sig];
     sigIndex := (sigIndex st + 1)%Z;
     warnings := warnings st |}.

(** The indices of the records are their positions. *)
Definition contiguous (signatures : list ExtractedSignature) : Prop :=
  map index signatures
  = map Z.of_nat (seq 0 (List.length signatures)).

(** As long as nothing was logged, [sigIndex] is the number of records
    and the records are numbered by position. *)
Definition tidy (st : Extraction) : Prop :=
  sigIndex st = Z.of_nat (List.length (signatures st))
  /\ contiguous (signatures st).

End Notions.

(* ================================================================== *)
(** * Notions used in the further properties *)
(* ================================================================== *)

Module Derived.

Import Forge Signature Examples.

(** A stand-in library whose [isIssuer] returns only when a certificate
    is compared with one of the same serial number, and throws
    otherwise. *)
Definition brittleLibrary (chain : list Certificate) : Library :=
  {| Asn1 := Asn1 (library chain);
     fromDer := fromDer (library chain);
     messageFromAsn1 := messageFromAsn1 (library chain);
     isIssuer := fun x y =>
       if jseqb (Forge.serialNumber x) (Forge.serialNumber y)
       then inr true
       else inl (JsError (str "Cannot read properties of undefined"));
     newDate := newDate (library chain) |}.



(** The values of the successive pairs of hexadecimal digits; an
    unpaired last digit has none. *)
Fixpoint pairValues (hex : jsstring) : list N :=
  match hex with
  | a :: b :: r => parseInt16 [a; b] :: pairValues r
  | _ => []
  end.

(** Lower-case hexadecimal digits. *)
Definition hexDigitLower (d : N) : N :=
  if N.ltb d 10 then (48 + d)%N else (87 + d)%N.

(** Two hexadecimal digits for a byte, each in either case. *)
Definition hexPair (upperHigh upperLow : bool) (b : N) : jsstring :=
  [ (if upperHigh then hexDigitUpper else hexDigitLower) (b / 16)%N;
    (if upperLow then hexDigitUpper else hexDigitLower) (b mod 16)%N ].

(** A hexadecimal writing of a byte sequence; [cases] chooses the case
    of each digit. *)
Fixpoint toHex (cases : nat -> bool * bool) (bytes : list N) : jsstring :=
  match bytes with
  | [] => []
  | b :: t =>
      hexPair (fst (cases 0)) (snd (cases 0)) b
      ++ toHex (fun k => cases (S k)) t
  end.

(** What every record of the locator satisfies. *)
Definition wellFormed (sig : ExtractedSignature) : Prop :=
  List.length (byteRange sig) = 4
  /\ Forall (fun x => (0 <= x)%Z) (byteRange sig)
  /\ (contents sig = [] \/ last (contents sig) 0%N <> 0%N).

(** The text of an object identifier: digits and dots. *)
Definition isOidText (oid : jsstring) : bool :=
  forallb (fun c => isDigit c || N.eqb c 46) oid.

(** Equality of texts up to the case of ASCII letters. *)
Fixpoint sameTextIgnoringCase (a b : jsstring) : bool :=
  match a, b with
  | [], [] => true
  | x :: a', y :: b' =>
      N.eqb (toLowerAscii x) (toLowerAscii y) && sameTextIgnoringCase a' b'
  | _, _ => false
  end.

(** The numbering the scan keeps: [sigIndex] counts the records and the
    diagnostics, and the indices of the records grow and stay below it. *)
Definition numbered (st : Extraction) : Prop :=
  sigIndex st
  = Z.of_nat (List.length (signatures st) + List.length (warnings st))
  /\ StronglySorted Z.lt (map index (signatures st))
  /\ Forall (fun i => (0 <= i < sigIndex st)%Z)
            (map index (signatures st)).

(** No name of the table is 'Unknown' and no key is empty. *)
Definition plainTable (table : list (jsstring * jsstring)) : bool :=
  forallb (fun kv => negb (jseqb (snd kv) (str "Unknown"))
                     && negb (jseqb (fst kv) [])) table.

(** The header that opens a response to the calling origin. *)
Definition allowOriginHeader (origin : option jsstring)
  : jsstring * jsstring :=
  (str "Access-Control-Allow-Origin",
   match origin with
   | None | Some [] => str "*"
   | Some o => o
   end).


(** A document with one signature dictionary whose payload starts with
    the SEQUENCE tag, and the record the locator makes of it. *)
Definition signedDocument : list N :=
  str "<< /Type /Sig /ByteRange [0 10 20 37] /Contents <3082010A0000> >>".

Definition signedRecord : ExtractedSignature :=
  {| index := 0; contents := [48; 130; 1; 10]%N;
     byteRange := [0; 10; 20; 37]%Z; reason := None; location := None;
     contactInfo := None; name := None; signingTime := None |}.

(** The code unit the matcher has just passed after reading [w]. *)
Definition lastRead (w : jsstring) (pv : option N) : option N :=
  fold_left (fun _ c => Some c) w pv.

(** The texts the allow list looks for anywhere, and those it looks for
    at the end. *)
Definition anywhereTexts : list jsstring :=
  [ str "/certs/"; str "/ocsp"; str "/crl"; str "caIssuers" ].

Definition endingTexts : list jsstring :=
  [ str ".crt"; str ".cer"; str ".pem" ].

End Derived.

(* ================================================================== *)
(** * Properties of the signature engine *)
(* ================================================================== *)

Import Forge Signature.

(** ** Trailing-zero stripping *)

Section Stripping.

Lemma actualLength_le (bytes : list N) (n : nat) :
  actualLength bytes n <= n.
Proof.
  induction n as [|m IH]; simpl; [lia|].
  destruct (N.eqb (nth m bytes 0%N) 0); lia.
Qed.

Lemma actualLength_nonzero (bytes : list N) (n m : nat) :
  actualLength bytes n = S m -> nth m bytes 0%N <> 0%N.
Proof.
  induction n as [|k IH]; simpl; [discriminate|].
  destruct (N.eqb (nth k bytes 0%N) 0) eqn:E.
  - exact IH.
  - intros H; injection H as ->. now apply N.eqb_neq.
Qed.

Lemma actualLength_stop (bytes : list N) (m : nat) :
  nth m bytes 0%N <> 0%N -> actualLength bytes (S m) = S m.
Proof.
  intros H; simpl. apply N.eqb_neq in H. now rewrite H.
Qed.

Lemma nth_firstn_below (bytes : list N) (k m : nat) :
  m < k -> nth m (firstn k bytes) 0%N = nth m bytes 0%N.
Proof.
  revert k m; induction bytes as [|b t IH]; intros k m Hlt.
  - now rewrite firstn_nil.
  - destruct k as [|k]; [lia|]. destruct m as [|m]; simpl; [reflexivity|].
    apply IH; lia.
Qed.

Lemma last_nth (bytes : list N) (m : nat) :
  List.length bytes = S m -> last bytes 0%N = nth m bytes 0%N.
Proof.
  revert m; induction bytes as [|b t IH]; intros m Hlen; [discriminate|].
  destruct t as [|c t'].
  - simpl in Hlen. now replace m with 0 by lia.
  - destruct m as [|m]; [simpl in Hlen; lia|].
    change (last (c :: t') 0%N = nth m (c :: t') 0%N).
    apply IH. simpl in *; lia.
Qed.

Lemma strip_length (bytes : list N) :
  List.length (stripTrailingZeros bytes)
  = actualLength bytes (List.length bytes).
Proof.
  unfold stripTrailingZeros. rewrite length_firstn.
  pose proof (actualLength_le bytes (List.length bytes)). lia.
Qed.

Lemma strip_fixed (bytes : list N) :
  bytes = [] \/ last bytes 0%N <> 0%N -> stripTrailingZeros bytes = bytes.
Proof.
  intros [-> | Hlast]; [reflexivity|].
  unfold stripTrailingZeros.
  destruct (List.length bytes) as [|m] eqn:Hlen.
  - now destruct bytes.
  - rewrite (last_nth _ _ Hlen) in Hlast.
    rewrite (actualLength_stop _ _ Hlast), <- Hlen. apply firstn_all.
Qed.

Lemma strip_end (bytes : list N) :
  stripTrailingZeros bytes = []
  \/ last (stripTrailingZeros bytes) 0%N <> 0%N.
Proof.
  pose proof (strip_length bytes) as Hlen.
  pose proof (actualLength_le bytes (List.length bytes)) as Hle.
  destruct (actualLength bytes (List.length bytes)) as [|m] eqn:E.
  - left. now destruct (stripTrailingZeros bytes).
  - right. rewrite (last_nth _ _ Hlen). unfold stripTrailingZeros.
    rewrite E, nth_firstn_below by lia.
    exact (actualLength_nonzero _ _ _ E).
Qed.

End Stripping.

(** C8.  Stripping trailing zero bytes is idempotent; a sequence that is
    empty or whose last byte is not zero is returned unchanged; what the
    stripping step returns is empty or ends in a byte that is not zero;
    and so what [hexToBytes] returns is a fixed point of the stripping. *)
Theorem stripTrailingZeros_idempotent (bytes : list N) :
  stripTrailingZeros (stripTrailingZeros bytes) = stripTrailingZeros bytes
  /\ (bytes = [] \/ last bytes 0%N <> 0%N ->
      stripTrailingZeros bytes = bytes)
  /\ (stripTrailingZeros bytes = []
      \/ last (stripTrailingZeros bytes) 0%N <> 0%N)
  /\ (forall hex : jsstring,
        stripTrailingZeros (hexToBytes hex) = hexToBytes hex).
Proof.
  repeat split.
  - apply strip_fixed, strip_end.
  - apply strip_fixed.
  - apply strip_end.
  - intros hex. unfold hexToBytes. apply strip_fixed, strip_end.
Qed.

Lemma stripTrailingZeros_idempotent_witness :
  stripTrailingZeros [48; 0; 130]%N = [48; 0; 130]%N.
Proof.
  apply (proj1 (proj2 (stripTrailingZeros_idempotent [48; 0; 130]%N))).
  right. simpl. discriminate.
Defined.

(** ** The validator *)

Ltac validator_paths :=
  unfold validateSignature, tryBlock;
  repeat match goal with
  | |- context [match fromDer ?F ?b with _ => _ end] =>
      destruct (fromDer F b) as [?e|?asn1] eqn:?
  | |- context [match messageFromAsn1 ?F ?a with _ => _ end] =>
      destruct (messageFromAsn1 F a) as [?e|?p7] eqn:?
  | |- context [match certificates ?p with _ => _ end] =>
      destruct (certificates p) as [[|?signerCert ?rest]|] eqn:?
  | |- context [match isIssuer ?F ?x ?x with _ => _ end] =>
      destruct (isIssuer F x x) as [?e|?selfSigned] eqn:?
  | |- context [match trustEvaluation ?F ?t ?c ?l with _ => _ end] =>
      destruct (trustEvaluation F t c l) as [?e|?trusted] eqn:?
  | |- context [match signingTimeAttribute ?p with _ => _ end] =>
      destruct (signingTimeAttribute p) eqn:?
  | |- context [match signingTime ?s with _ => _ end] =>
      destruct (signingTime s) as [[|? ?]|] eqn:?
  | |- context [match ?t with Some _ => _ | None => _ end] =>
      is_var t; destruct t
  end.

Section ValidatorFacts.

Variable F : Library.

(** The coverage step touches [coverageStatus] only, and decides it from
    the byte range and the document length. *)
Lemma coverage_status (signature : ExtractedSignature) (pdfBytes : list N)
      (result : Result.t) :
  Result.coverageStatus (coverage signature pdfBytes result)
  = match byteRange signature with
    | [start1; len1; start2; len2] =>
        if Z.eqb (start2 + len2) (Z.of_nat (List.length pdfBytes))
        then full
        else if Z.ltb (start2 + len2) (Z.of_nat (List.length pdfBytes))
        then partial
        else Result.coverageStatus result
    | _ => Result.coverageStatus result
    end.
Proof.
  unfold coverage.
  destruct (byteRange signature) as [|a [|b [|c [|d [|x t]]]]];
    try reflexivity.
  destruct (Z.eqb (c + d) (Z.of_nat (List.length pdfBytes)));
    [reflexivity|].
  destruct (Z.ltb (c + d) (Z.of_nat (List.length pdfBytes))); reflexivity.
Qed.

Ltac coverage_field :=
  unfold coverage;
  repeat match goal with
  | |- context [match ?x with _ => _ end] => destruct x
  end;
  reflexivity.

Lemma coverage_isValid (signature : ExtractedSignature)
      (pdfBytes : list N) (result : Result.t) :
  Result.isValid (coverage signature pdfBytes result)
  = Result.isValid result.
Proof. coverage_field. Qed.

Lemma coverage_isTrusted (signature : ExtractedSignature)
      (pdfBytes : list N) (result : Result.t) :
  Result.isTrusted (coverage signature pdfBytes result)
  = Result.isTrusted result.
Proof. coverage_field. Qed.

Lemma coverage_isExpired (signature : ExtractedSignature)
      (pdfBytes : list N) (result : Result.t) :
  Result.isExpired (coverage signature pdfBytes result)
  = Result.isExpired result.
Proof. coverage_field. Qed.

Lemma coverage_validFrom (signature : ExtractedSignature)
      (pdfBytes : list N) (result : Result.t) :
  Result.validFrom (coverage signature pdfBytes result)
  = Result.validFrom result.
Proof. coverage_field. Qed.

Lemma coverage_validTo (signature : ExtractedSignature)
      (pdfBytes : list N) (result : Result.t) :
  Result.validTo (coverage signature pdfBytes result)
  = Result.validTo result.
Proof. coverage_field. Qed.

Lemma coverage_signatureIndex (signature : ExtractedSignature)
      (pdfBytes : list N) (result : Result.t) :
  Result.signatureIndex (coverage signature pdfBytes result)
  = Result.signatureIndex result.
Proof. coverage_field. Qed.

(** The result is valid exactly when the [try] block ran to its end; the
    coverage status is then the one the coverage step computes from the
    default [unknown]. *)
Lemma valid_coverage (now : Date) (signature : ExtractedSignature)
      (pdfBytes : list N) (trustedCert : option Certificate) :
  Result.isValid (validateSignature F now signature pdfBytes trustedCert)
  = true ->
  Result.coverageStatus
    (validateSignature F now signature pdfBytes trustedCert)
  = Result.coverageStatus
      (coverage signature pdfBytes (defaultResult signature)).
Proof.
  validator_paths; cbn; try discriminate; intros _;
    rewrite !coverage_status; reflexivity.
Qed.

Lemma invalid_coverage (now : Date) (signature : ExtractedSignature)
      (pdfBytes : list N) (trustedCert : option Certificate) :
  Result.isValid (validateSignature F now signature pdfBytes trustedCert)
  = false ->
  Result.coverageStatus
    (validateSignature F now signature pdfBytes trustedCert) = unknown.
Proof.
  validator_paths; cbn; intros H; try reflexivity; discriminate H.
Qed.

End ValidatorFacts.

Ltac through_coverage :=
  rewrite ?coverage_isValid, ?coverage_isTrusted, ?coverage_isExpired,
    ?coverage_validFrom, ?coverage_validTo, ?coverage_signatureIndex.

(** C1.  For a signature that validates (the result has [isValid]) and
    whose byte range has the four elements [start1, len1, start2, len2],
    with a document of [L] bytes: the coverage status is [full] exactly
    when [start2 + len2 = L], [partial] exactly when [start2 + len2 < L],
    and [unknown] exactly when [start2 + len2 > L].  A byte range that does
    not have four elements leaves the status [unknown]. *)
Theorem coverageStatus_spec (F : Library) (now : Date)
        (signature : ExtractedSignature) (pdfBytes : list N)
        (trustedCert : option Certificate) :
  let result := validateSignature F now signature pdfBytes trustedCert in
  let L := Z.of_nat (List.length pdfBytes) in
  (forall start1 len1 start2 len2 : Z,
      byteRange signature = [start1; len1; start2; len2] ->
      Result.isValid result = true ->
      (Result.coverageStatus result = full <-> (start2 + len2 = L)%Z)
      /\ (Result.coverageStatus result = partial <-> (start2 + len2 < L)%Z)
      /\ (Result.coverageStatus result = unknown <-> (L < start2 + len2)%Z))
  /\ (List.length (byteRange signature) <> 4 ->
      Result.coverageStatus result = unknown).
Proof.
  intros result L; split.
  - intros start1 len1 start2 len2 Hrange Hvalid.
    unfold result. rewrite (valid_coverage F _ _ _ _ Hvalid).
    rewrite coverage_status, Hrange. fold L. cbn [Result.coverageStatus
      defaultResult].
    destruct (Z.eqb_spec (start2 + len2) L) as [Heq|Hne].
    + repeat split; intros; try discriminate; try lia; reflexivity.
    + destruct (Z.ltb_spec (start2 + len2) L) as [Hlt|Hge].
      * repeat split; intros; try discriminate; try lia; reflexivity.
      * repeat split; intros; try discriminate; try lia; reflexivity.
  - intros Hlen. unfold result.
    destruct (Result.isValid
                (validateSignature F now signature pdfBytes trustedCert))
      eqn:Hvalid.
    + rewrite (valid_coverage F _ _ _ _ Hvalid), coverage_status.
      destruct (byteRange signature) as [|a [|b [|c [|d [|x t]]]]];
        try reflexivity.
      now elim Hlen.
    + now apply invalid_coverage.
Qed.

Lemma coverageStatus_spec_witness :
  Result.coverageStatus
    (validateSignature (Examples.library [Examples.aliceCert])
       Examples.midTime
       (Examples.signatureWith Examples.goodPayload [0; 100; 200; 50]%Z)
       Examples.document250 None) = full.
Proof.
  apply (proj1 (coverageStatus_spec
                  (Examples.library [Examples.aliceCert]) Examples.midTime
                  (Examples.signatureWith Examples.goodPayload
                     [0; 100; 200; 50]%Z)
                  Examples.document250 None) 0 100 200 50 eq_refl eq_refl)%Z.
  reflexivity.
Defined.

(** The message the [catch] clause stores is never empty when the
    library's are not. *)
Lemma library_messages (chain : list Certificate) :
  Messages (Examples.library chain).
Proof.
  split; simpl.
  - intros [|b t] m H; [|destruct (N.eqb b 48)];
      inversion H; discriminate.
  - discriminate.
  - unfold forge_isIssuer; discriminate.
Qed.

(** C2.  When the payload fails to decode (the DER parser or the
    signed-data reader throws), the result has [isValid = false], a
    non-empty [errorMessage], [signerName = 'Unknown'] and both dates at
    the zero default.  And whenever a result has [isValid = false], its
    [errorMessage] is non-empty. *)
Theorem decode_failure_defaults (F : Library) (HF : Messages F)
        (now : Date) (signature : ExtractedSignature) (pdfBytes : list N)
        (trustedCert : option Certificate) :
  let result := validateSignature F now signature pdfBytes trustedCert in
  ((exists e, fromDer F (contents signature) = inl e)
   \/ (exists asn1 e, fromDer F (contents signature) = inr asn1
                      /\ messageFromAsn1 F asn1 = inl e) ->
   Result.isValid result = false
   /\ (exists m, Result.errorMessage result = Some m /\ m <> [])
   /\ Result.signerName result = str "Unknown"
   /\ Result.validFrom result = TimeValue 0
   /\ Result.validTo result = TimeValue 0)
  /\ (Result.isValid result = false ->
      exists m, Result.errorMessage result = Some m /\ m <> []).
Proof.
  assert (Hmsg : forall e : thrown,
             (forall m, e = JsError m -> m <> []) ->
             exists m,
               Some (match e with
                     | JsError message => message
                     | JsOther => str "Failed to parse signature"
                     end) = Some m /\ m <> []).
  { intros [m|] Hm; eexists; split; try reflexivity.
    - now apply Hm.
    - discriminate. }
  destruct HF as [HD HM HI].
  intros result; unfold result; split.
  - intros [[e He] | (asn1 & e & Ha & He)].
    + unfold validateSignature, tryBlock. rewrite He. cbn.
      repeat split; try reflexivity.
      apply Hmsg. intros m ->. exact (HD _ _ He).
    + unfold validateSignature, tryBlock. rewrite Ha, He. cbn.
      repeat split; try reflexivity.
      apply Hmsg. intros m ->. exact (HM _ _ He).
  - validator_paths; cbn; intros Hvalid; try discriminate Hvalid;
      try (eexists; split; [reflexivity|discriminate]);
      apply Hmsg; intros m ->; eauto.
Qed.

Lemma decode_failure_defaults_witness :
  Result.isValid
    (validateSignature (Examples.library [Examples.aliceCert])
       Examples.midTime
       (Examples.signatureWith Examples.badPayload [0; 100; 200; 50]%Z)
       Examples.document250 None) = false
  /\ Result.signerName
       (validateSignature (Examples.library [Examples.aliceCert])
          Examples.midTime
          (Examples.signatureWith Examples.badPayload [0; 100; 200; 50]%Z)
          Examples.document250 None) = str "Unknown".
Proof.
  destruct (proj1 (decode_failure_defaults
                     (Examples.library [Examples.aliceCert])
                     (library_messages [Examples.aliceCert])
                     Examples.midTime
                     (Examples.signatureWith Examples.badPayload
                        [0; 100; 200; 50]%Z)
                     Examples.document250 None)) as (Hv & _ & Hn & _).
  - left. exists Examples.derError. reflexivity.
  - split; assumption.
Defined.

(** C5.  When the payload decodes and its first certificate has the
    validity window [from, to], the result carries that window, and
    [isExpired] is true exactly when the evaluation time is strictly
    before [from] or strictly after [to]; in particular it is false for
    every evaluation time in the closed interval, and a certificate that
    is not valid yet is flagged expired. *)
Theorem isExpired_spec (F : Library) (signature : ExtractedSignature)
        (pdfBytes : list N) (trustedCert : option Certificate)
        (asn1 : Asn1 F) (p7 : P7) (signerCert : Certificate)
        (rest : list Certificate) (from to now : Z) :
  fromDer F (contents signature) = inr asn1 ->
  messageFromAsn1 F asn1 = inr p7 ->
  certificates p7 = Some (signerCert :: rest) ->
  notBefore signerCert = TimeValue from ->
  notAfter signerCert = TimeValue to ->
  let result :=
    validateSignature F (TimeValue now) signature pdfBytes trustedCert in
  Result.validFrom result = TimeValue from
  /\ Result.validTo result = TimeValue to
  /\ (Result.isExpired result = true <-> (now < from \/ to < now)%Z)
  /\ ((from <= now <= to)%Z -> Result.isExpired result = false)
  /\ ((now < from)%Z -> Result.isExpired result = true).
Proof.
  intros HD HM HC Hfrom Hto result.
  assert (Hfields :
    Result.validFrom result = TimeValue from
    /\ Result.validTo result = TimeValue to
    /\ Result.isExpired result = (Z.ltb to now || Z.ltb now from)).
  { unfold result, validateSignature, tryBlock.
    rewrite HD, HM, HC.
    validator_paths; cbn; through_coverage; cbn; rewrite Hfrom, Hto;
      repeat split; reflexivity. }
  destruct Hfields as (Hvf & Hvt & He).
  rewrite Hvf, Hvt, He. repeat split.
  - intros H. apply orb_true_iff in H. destruct H as [H|H];
      apply Z.ltb_lt in H; lia.
  - intros [H|H]; apply orb_true_iff; [right|left]; now apply Z.ltb_lt.
  - intros [H1 H2]. apply orb_false_iff; split; apply Z.ltb_ge; lia.
  - intros H. apply orb_true_iff; right. now apply Z.ltb_lt.
Qed.

Lemma isExpired_spec_witness :
  Result.isExpired
    (validateSignature (Examples.library [Examples.aliceCert])
       (TimeValue 1650000000000)
       (Examples.signatureWith Examples.goodPayload [0; 100; 200; 50]%Z)
       Examples.document250 None) = false.
Proof.
  refine (proj1 (proj2 (proj2 (proj2
    (isExpired_spec (Examples.library [Examples.aliceCert])
       (Examples.signatureWith Examples.goodPayload [0; 100; 200; 50]%Z)
       Examples.document250 None Examples.goodPayload
       {| certificates := Some [Examples.aliceCert];
          authenticatedAttributes := None |}
       Examples.aliceCert [] 1600000000000 1700000000000 1650000000000
       eq_refl eq_refl eq_refl eq_refl eq_refl)))) _).
  lia.
Defined.

(** C10.  Without a trusted certificate the result is never trusted,
    whatever the payload decodes to and whatever the document is. *)
Theorem no_trusted_certificate_untrusted (F : Library) (now : Date)
        (signature : ExtractedSignature) (pdfBytes : list N) :
  Result.isTrusted (validateSignature F now signature pdfBytes None)
  = false.
Proof.
  validator_paths; cbn; through_coverage; reflexivity.
Qed.

(** ** Trust evaluation *)

Section Trust.

Variable F : Library.

(** On the path where the payload decodes, a certificate is embedded and
    the self-signed check returns, the flag is what the inner [try]
    computed, and [false] when that threw. *)
Lemma isTrusted_evaluation (now : Date) (signature : ExtractedSignature)
      (pdfBytes : list N) (trustedCert : Certificate) (asn1 : Asn1 F)
      (p7 : P7) (signerCert : Certificate) (rest : list Certificate)
      (selfSigned : bool) :
  fromDer F (contents signature) = inr asn1 ->
  messageFromAsn1 F asn1 = inr p7 ->
  certificates p7 = Some (signerCert :: rest) ->
  isIssuer F signerCert signerCert = inr selfSigned ->
  Result.isTrusted
    (validateSignature F now signature pdfBytes (Some trustedCert))
  = match trustEvaluation F trustedCert signerCert (signerCert :: rest)
    with
    | inr trusted => trusted
    | inl _ => false
    end.
Proof.
  intros HD HM HC HS. unfold validateSignature, tryBlock.
  rewrite HD, HM, HC, HS.
  validator_paths; cbn; through_coverage; reflexivity.
Qed.

(** A trusted certificate with the signer's serial number is accepted as
    soon as the first [isIssuer] call returns: the chain loop starts with
    the signer certificate itself. *)
Lemma same_serial_trusted (trustedCert signerCert : Certificate)
      (rest : list Certificate) (b : bool) :
  isIssuer F trustedCert signerCert = inr b ->
  jseqb (Forge.serialNumber signerCert) (Forge.serialNumber trustedCert)
  = true ->
  trustEvaluation F trustedCert signerCert (signerCert :: rest)
  = inr true.
Proof.
  intros HI HS. unfold trustEvaluation. simpl. rewrite HI, HS.
  destruct b; simpl; now rewrite ?orb_true_r.
Qed.

(** With the library's [isIssuer], which never throws, the evaluation
    compares the issuer of the {e trusted} certificate with the subject of
    the signer certificate and of each embedded certificate. *)
Lemma chainLoop_forge (trustedCert : Certificate)
      (certs : list Certificate) :
  (forall x y, isIssuer F x y = forge_isIssuer x y) ->
  chainLoop F trustedCert certs
  = inr (existsb
           (fun cert =>
              nameMatches (Forge.issuer trustedCert) (subject cert)
              || jseqb (Forge.serialNumber cert)
                       (Forge.serialNumber trustedCert)) certs).
Proof.
  intros HF. induction certs as [|cert certs IH]; simpl; [reflexivity|].
  rewrite HF. unfold forge_isIssuer.
  destruct (nameMatches (Forge.issuer trustedCert) (subject cert));
    [reflexivity|].
  destruct (jseqb (Forge.serialNumber cert)
                  (Forge.serialNumber trustedCert)); [reflexivity|].
  exact IH.
Qed.

Lemma trustEvaluation_forge (trustedCert signerCert : Certificate)
      (certs : list Certificate) :
  (forall x y, isIssuer F x y = forge_isIssuer x y) ->
  trustEvaluation F trustedCert signerCert certs
  = inr (nameMatches (Forge.issuer trustedCert) (subject signerCert)
         || jseqb (Forge.serialNumber signerCert)
                  (Forge.serialNumber trustedCert)
         || existsb
              (fun cert =>
                 nameMatches (Forge.issuer trustedCert) (subject cert)
                 || jseqb (Forge.serialNumber cert)
                          (Forge.serialNumber trustedCert)) certs).
Proof.
  intros HF. unfold trustEvaluation.
  rewrite (chainLoop_forge _ _ HF), HF. reflexivity.
Qed.

End Trust.

(** C4, at a trusted certificate that is the direct issuer of the signer
    certificate.  The root certificate issued Alice's (her issuer name is
    the root's subject name), the payload decodes and embeds Alice's
    certificate alone, the root is supplied as the trusted certificate:
    [trustedCert.isIssuer(signerCert)] asks whether the {e signer} issued
    the {e trusted} certificate, and the result is not trusted. *)
Theorem trusted_issuer_not_recognised :
  let result :=
    validateSignature (Examples.library [Examples.aliceCert])
      Examples.midTime
      (Examples.signatureWith Examples.goodPayload [0; 100; 200; 50]%Z)
      Examples.document250 (Some Examples.rootCert) in
  nameMatches (Forge.issuer Examples.aliceCert)
              (subject Examples.rootCert) = true
  /\ forge_isIssuer Examples.aliceCert Examples.rootCert = inr true
  /\ forge_isIssuer Examples.rootCert Examples.aliceCert = inr false
  /\ Result.isValid result = true
  /\ Result.isTrusted result = false.
Proof.
  vm_compute. repeat split; reflexivity.
Qed.

(** ** Batch orchestration *)

Section Batch.

Variable F : Library.

Lemma validate_signatureIndex (now : Date)
      (signature : ExtractedSignature) (pdfBytes : list N)
      (trustedCert : option Certificate) :
  Result.signatureIndex
    (validateSignature F now signature pdfBytes trustedCert)
  = index signature.
Proof.
  validator_paths; cbn; through_coverage; reflexivity.
Qed.

Lemma mapValidate_length (clock : nat -> Date) (i : nat)
      (signatures : list ExtractedSignature) (pdfBytes : list N)
      (trustedCert : option Certificate) :
  List.length (mapValidate F clock i signatures pdfBytes trustedCert)
  = List.length signatures.
Proof.
  revert i; induction signatures as [|sig rest IH]; intros i;
    cbn [mapValidate List.length]; [reflexivity|].
  f_equal. apply IH.
Qed.

Lemma mapValidate_index (clock : nat -> Date) (i : nat)
      (signatures : list ExtractedSignature) (pdfBytes : list N)
      (trustedCert : option Certificate) :
  map Result.signatureIndex
      (mapValidate F clock i signatures pdfBytes trustedCert)
  = map index signatures.
Proof.
  revert i; induction signatures as [|sig rest IH]; intros i;
    cbn [mapValidate map]; [reflexivity|].
  rewrite IH, validate_signatureIndex. reflexivity.
Qed.

Lemma mapValidate_nth (clock : nat -> Date) (i : nat)
      (signatures : list ExtractedSignature) (pdfBytes : list N)
      (trustedCert : option Certificate) (k : nat)
      (sig : ExtractedSignature) :
  nth_error signatures k = Some sig ->
  nth_error (mapValidate F clock i signatures pdfBytes trustedCert) k
  = Some (validateSignature F (clock (i + k)) sig pdfBytes trustedCert).
Proof.
  revert i k; induction signatures as [|s rest IH]; intros i k H.
  - destruct k; discriminate.
  - destruct k as [|k]; cbn [mapValidate nth_error] in *.
    + injection H as ->. rewrite Nat.add_0_r. reflexivity.
    + rewrite (IH (S i) k H). replace (S i + k) with (i + S k) by lia.
      reflexivity.
Qed.

End Batch.

(** C3.  The batch returns one result per extracted signature, in the
    order of extraction, the [k]-th result being the validation of the
    [k]-th signature and carrying its index; [countSignatures] is the
    number of extracted signatures; a document in which the marker
    expression has no occurrence gives no signature, a count of zero and
    no result. *)
Theorem batch_one_result_per_signature (F : Library) (clock : nat -> Date)
        (pdfBytes : list N) (trustedCert : option Certificate) :
  let signatures := extractSignatures pdfBytes in
  let results := validatePdfSignatures F clock pdfBytes trustedCert in
  List.length results = List.length signatures
  /\ map Result.signatureIndex results = map index signatures
  /\ (forall k sig,
        nth_error signatures k = Some sig ->
        nth_error results k
        = Some (validateSignature F (clock k) sig pdfBytes trustedCert))
  /\ countSignatures pdfBytes = Z.of_nat (List.length signatures)
  /\ (markers (decodeLatin1 pdfBytes) = [] ->
      signatures = [] /\ countSignatures pdfBytes = 0%Z /\ results = []).
Proof.
  intros signatures results. unfold results, validatePdfSignatures.
  fold signatures. repeat split.
  - apply mapValidate_length.
  - apply mapValidate_index.
  - intros k sig H. rewrite (mapValidate_nth F clock 0 _ _ _ k sig H).
    reflexivity.
  - unfold signatures, extractSignatures, scan.
    rewrite H. reflexivity.
  - unfold countSignatures, extractSignatures, scan. rewrite H.
    reflexivity.
  - unfold signatures, extractSignatures, scan. rewrite H. reflexivity.
Qed.

(** ** The locator *)

Import Notions Examples.

Section Locator.

Variable pdfString : jsstring.

(** What one turn of the loop body can do. *)
Lemma loopBody_cases (st : Extraction) (sigMatch : rmatch) :
  (hasFields pdfString sigMatch = false
   /\ loopBody pdfString st sigMatch = (Normal, st))
  \/ (hasFields pdfString sigMatch = true
      /\ exists e, loopBody pdfString st sigMatch = (Threw e, bumped st))
  \/ (hasFields pdfString sigMatch = true
      /\ exists sig, index sig = sigIndex st
           /\ loopBody pdfString st sigMatch = (Normal, pushed st sig)).
Proof.
  unfold loopBody, hasFields.
  destruct (search byteRangeRegex (searchContext pdfString sigMatch))
    as [byteRangeMatch|]; [|left; split; reflexivity].
  destruct (search contentsRegex (searchContext pdfString sigMatch))
    as [contentsMatch|]; [|left; split; reflexivity].
  right.
  destruct (decodeText (search (textRegex "Reason") _)) as [e|reason];
    [left; split; [reflexivity|exists e; reflexivity]|].
  destruct (decodeText (search (textRegex "Location") _)) as [e|location];
    [left; split; [reflexivity|exists e; reflexivity]|].
  destruct (decodeText (search (textRegex "ContactInfo") _))
    as [e|contactInfo];
    [left; split; [reflexivity|exists e; reflexivity]|].
  destruct (decodeText (search (textRegex "Name") _)) as [e|name];
    [left; split; [reflexivity|exists e; reflexivity]|].
  right; split; [reflexivity|].
  eexists; split; [|reflexivity]. reflexivity.
Qed.

Lemma processMatch_cases (st : Extraction) (sigMatch : rmatch) :
  (hasFields pdfString sigMatch = false
   /\ processMatch pdfString st sigMatch = st)
  \/ (hasFields pdfString sigMatch = true
      /\ exists e, processMatch pdfString st sigMatch = warn (bumped st) e)
  \/ (hasFields pdfString sigMatch = true
      /\ exists sig, index sig = sigIndex st
           /\ processMatch pdfString st sigMatch = pushed st sig).
Proof.
  unfold processMatch.
  destruct (loopBody_cases st sigMatch)
    as [[H ->] | [[H [e ->]] | [H (sig & Hi & ->)]]]; eauto 6.
Qed.

(** A logged diagnostic is never taken back. *)
Lemma processMatch_quiet (st : Extraction) (sigMatch : rmatch) :
  warnings (processMatch pdfString st sigMatch) = [] -> warnings st = [].
Proof.
  destruct (processMatch_cases st sigMatch)
    as [[_ ->] | [[_ [e ->]] | [_ (sig & _ & ->)]]]; simpl; auto.
  intros H. now apply app_eq_nil in H.
Qed.

Lemma scan_quiet (ms : list rmatch) (st : Extraction) :
  warnings (fold_left (processMatch pdfString) ms st) = [] ->
  warnings st = [].
Proof.
  revert st; induction ms as [|m ms IH]; intros st H; simpl in H; auto.
  eapply processMatch_quiet, IH, H.
Qed.

Lemma pushed_tidy (st : Extraction) (sig : ExtractedSignature) :
  index sig = sigIndex st -> tidy st -> tidy (pushed st sig).
Proof.
  intros Hi [Hn Hc]. unfold tidy, contiguous, pushed in *.
  cbn [signatures sigIndex]. rewrite length_app. cbn [List.length].
  replace (List.length (signatures st) + 1)
    with (S (List.length (signatures st))) by lia.
  split; [lia|].
  rewrite seq_S, !map_app, Hc. cbn [map Nat.add]. now rewrite Hi, Hn.
Qed.

Lemma processMatch_tidy (st : Extraction) (sigMatch : rmatch) :
  warnings (processMatch pdfString st sigMatch) = [] ->
  tidy st -> tidy (processMatch pdfString st sigMatch).
Proof.
  destruct (processMatch_cases st sigMatch)
    as [[_ ->] | [[_ [e ->]] | [_ (sig & Hi & ->)]]]; simpl; auto.
  - intros H. apply app_eq_nil in H. destruct H; discriminate.
  - intros _. now apply pushed_tidy.
Qed.

Lemma scan_tidy (ms : list rmatch) (st : Extraction) :
  warnings (fold_left (processMatch pdfString) ms st) = [] ->
  tidy st -> tidy (fold_left (processMatch pdfString) ms st).
Proof.
  revert st; induction ms as [|m ms IH]; intros st H Ht; simpl in *; auto.
  apply IH; [exact H|]. apply processMatch_tidy; [|exact Ht].
  eapply scan_quiet, H.
Qed.

(** Every marker with both fields in its window consumes one index, and
    is either recorded or logged. *)
Lemma processMatch_count (st : Extraction) (sigMatch : rmatch) :
  let st' := processMatch pdfString st sigMatch in
  List.length (signatures st') + List.length (warnings st')
  = List.length (signatures st) + List.length (warnings st)
    + (if hasFields pdfString sigMatch then 1 else 0).
Proof.
  destruct (processMatch_cases st sigMatch)
    as [[H ->] | [[H [e ->]] | [H (sig & _ & ->)]]]; rewrite H; simpl;
    rewrite ?length_app; simpl; lia.
Qed.

Lemma scan_count (ms : list rmatch) (st : Extraction) :
  let st' := fold_left (processMatch pdfString) ms st in
  List.length (signatures st') + List.length (warnings st')
  = List.length (signatures st) + List.length (warnings st)
    + List.length (filter (hasFields pdfString) ms).
Proof.
  revert st; induction ms as [|m ms IH]; intros st; simpl; [lia|].
  rewrite IH, processMatch_count.
  destruct (hasFields pdfString m); simpl; lia.
Qed.

End Locator.

(** A document without the byte of the slash has no marker: every
    occurrence of the marker expression starts with one. *)
Lemma windows1252_slash (b : N) : windows1252 b = 47%N -> b = 47%N.
Proof.
  unfold windows1252, inRange.
  destruct (N.leb 128 b && N.leb b 159) eqn:E; [|auto].
  apply andb_true_iff in E. destruct E as [Hlo Hhi].
  apply N.leb_le in Hlo, Hhi.
  assert (Hk : N.to_nat (b - 128) < 32) by lia.
  revert Hk. generalize (N.to_nat (b - 128)) as k. intros k Hk.
  do 32 (destruct k as [|k]; [cbn; discriminate|]). lia.
Qed.

Lemma matchAt_sigRegex_head (s : jsstring) (i : nat) (pv : option N) :
  match s with c :: _ => c <> 47%N | [] => True end ->
  matchAt sigRegex s i pv = None.
Proof.
  intros H. unfold matchAt, sigRegex. cbn [seqs str lit matchK rest].
  destruct s as [|c s']; [reflexivity|].
  change (N_of_ascii "/") with 47%N.
  destruct (N.eqb_spec 47 c) as [E|E]; [|reflexivity].
  elim H. symmetry. exact E.
Qed.

Lemma execAll_sigRegex_without_slash (s : jsstring) :
  (forall c, In c s -> c <> 47%N) ->
  forall i pv skip, execAll sigRegex s i pv skip = [].
Proof.
  induction s as [|c s IH]; intros H i pv skip.
  - destruct skip; cbn [execAll]; [|reflexivity].
    now rewrite matchAt_sigRegex_head.
  - assert (Hs : forall d, In d s -> d <> 47%N)
      by (intros d Hd; apply H; now right).
    destruct skip; cbn [execAll].
    + rewrite matchAt_sigRegex_head by (apply H; now left).
      now apply IH.
    + now apply IH.
Qed.

Lemma markers_without_slash (pdfBytes : list N) :
  (forall b, In b pdfBytes -> b <> 47%N) ->
  markers (decodeLatin1 pdfBytes) = [].
Proof.
  intros H. unfold markers. apply execAll_sigRegex_without_slash.
  intros c Hc. unfold decodeLatin1 in Hc. apply in_map_iff in Hc.
  destruct Hc as (b & <- & Hb). intros E. apply windows1252_slash in E.
  exact (H b Hb E).
Qed.

Lemma batch_one_result_per_signature_witness :
  extractSignatures noSignature = []
  /\ countSignatures noSignature = 0%Z
  /\ validatePdfSignatures (library [aliceCert]) (fun _ => midTime)
       noSignature None = [].
Proof.
  apply (proj2 (proj2 (proj2 (proj2
    (batch_one_result_per_signature (library [aliceCert])
       (fun _ => midTime) noSignature None))))).
  vm_compute. reflexivity.
Defined.

(** C6, as stated, fails on two adjacent dictionaries of which the first
    has no byte range: the window of the first marker reaches into the
    second dictionary, finds the byte range there, and two records are
    returned. *)
Lemma close_dictionaries_two_records :
  search byteRangeRegex (str "<< /Type /Sig /Contents <AB> >>") = None
  /\ map index (extractSignatures closeDictionaries) = [0; 1]%Z
  /\ map byteRange (extractSignatures closeDictionaries)
     = [[0; 1; 2; 3]; [0; 1; 2; 3]]%Z.
Proof.
  vm_compute. repeat split; reflexivity.
Qed.

(** C6, amended.  When the scan logs nothing, the records carry the
    indices 0..K-1 in the order of discovery.  A marker in whose window
    the byte-range or the payload pattern has no match adds no record and
    consumes no index.  So, in a document with two markers where the
    window of the first lacks a field, the window of the second has both
    and nothing is logged, exactly one record is returned and its index is
    0. *)
Theorem contiguous_indices_when_quiet (pdfBytes : list N) :
  let pdfString := decodeLatin1 pdfBytes in
  (warnings (scan pdfBytes) = [] ->
   contiguous (extractSignatures pdfBytes))
  /\ (forall st m,
        hasFields pdfString m = false ->
        processMatch pdfString st m = st)
  /\ (forall m1 m2,
        markers pdfString = [m1; m2] ->
        hasFields pdfString m1 = false ->
        hasFields pdfString m2 = true ->
        warnings (scan pdfBytes) = [] ->
        exists sig,
          extractSignatures pdfBytes = [sig] /\ index sig = 0%Z).
Proof.
  intros pdfString.
  assert (Hskip : forall st m,
             hasFields pdfString m = false ->
             processMatch pdfString st m = st).
  { intros st m H.
    destruct (processMatch_cases pdfString st m)
      as [[_ ->] | [[H' _] | [H' _]]]; [reflexivity| |];
      rewrite H in H'; discriminate. }
  repeat split.
  - intros Hq. unfold extractSignatures.
    apply (scan_tidy pdfString (markers pdfString) emptyExtraction Hq).
    split; reflexivity.
  - exact Hskip.
  - intros m1 m2 Hm H1 H2 Hq. unfold extractSignatures.
    unfold scan in *. fold pdfString in Hq |- *. rewrite Hm in Hq |- *.
    cbn [fold_left] in Hq |- *. fold emptyExtraction in Hq |- *.
    rewrite (Hskip _ _ H1) in Hq |- *.
    destruct (processMatch_cases pdfString emptyExtraction m2)
      as [[H' _] | [[_ [e He]] | [_ (sig & Hi & He)]]].
    + rewrite H2 in H'; discriminate.
    + rewrite He in Hq. discriminate.
    + rewrite He. exists sig. split; [reflexivity|exact Hi].
Qed.

Lemma contiguous_indices_when_quiet_witness :
  exists sig,
    extractSignatures farDictionaries = [sig] /\ index sig = 0%Z.
Proof.
  apply (proj2 (proj2 (contiguous_indices_when_quiet farDictionaries))
           (RMatch 3 13 []) (RMatch 10034 10044 []));
    vm_compute; reflexivity.
Defined.

(** The index a turn of the loop takes is lost when a text field of that
    turn fails to decode: the record that follows is numbered 1. *)
Lemma index_gap_after_exception :
  map index (extractSignatures undecodableReason) = [1%Z]
  /\ warnings (scan undecodableReason) = [(1%Z, URIError)].
Proof.
  vm_compute. split; reflexivity.
Qed.

(** C7, as stated, fails on its example: a payload with an odd number of
    hexadecimal digits raises nothing; the buffer has the length rounded
    down, the signature is kept and nothing is logged. *)
Lemma odd_contents_kept :
  hexToBytes (str "ABC") = [171%N]
  /\ warnings (scan oddContents) = []
  /\ map contents (extractSignatures oddContents) = [[171%N]].
Proof.
  vm_compute. repeat split; reflexivity.
Qed.

(** C7, amended.  [extractSignatures] returns a sequence for every input
    (the scan is a total function: nothing outside the [try] of the loop
    body throws).  When the body of a turn throws (as
    [decodeURIComponent] does on a text field that is not UTF-8), the
    [catch] keeps the records as they were, logs one diagnostic, and the
    scan goes on: over the whole scan, every marker with both fields in
    its window is either recorded or logged. *)
Theorem scan_isolates_exceptions (pdfBytes : list N) :
  let pdfString := decodeLatin1 pdfBytes in
  (forall st m e st',
      loopBody pdfString st m = (Threw e, st') ->
      signatures (processMatch pdfString st m) = signatures st
      /\ warnings (processMatch pdfString st m)
         = warnings st ++ [(sigIndex st', e)])
  /\ extractSignatures pdfBytes
     = signatures (fold_left (processMatch pdfString) (markers pdfString)
                             emptyExtraction)
  /\ List.length (extractSignatures pdfBytes)
     + List.length (warnings (scan pdfBytes))
     = List.length (filter (hasFields pdfString) (markers pdfString)).
Proof.
  intros pdfString. repeat split.
  - unfold processMatch. rewrite H.
    destruct (loopBody_cases pdfString st m)
      as [[_ H'] | [[_ [e' H']] | [_ (sig & _ & H')]]];
      rewrite H in H'; inversion H'; subst; reflexivity.
  - unfold processMatch. rewrite H.
    destruct (loopBody_cases pdfString st m)
      as [[_ H'] | [[_ [e' H']] | [_ (sig & _ & H')]]];
      rewrite H in H'; inversion H'; subst; reflexivity.
  - unfold extractSignatures, scan. fold pdfString.
    rewrite (scan_count pdfString (markers pdfString)). reflexivity.
Qed.

Lemma scan_isolates_exceptions_witness :
  signatures (processMatch (decodeLatin1 undecodableReason)
                emptyExtraction (RMatch 3 13 [])) = []
  /\ warnings (processMatch (decodeLatin1 undecodableReason)
                 emptyExtraction (RMatch 3 13 []))
     = [] ++ [(1%Z, URIError)].
Proof.
  apply (proj1 (scan_isolates_exceptions undecodableReason)
           emptyExtraction (RMatch 3 13 []) URIError
           (bumped emptyExtraction)).
  vm_compute. reflexivity.
Defined.

(* ================================================================== *)
(** * Properties of the certificate relay *)
(* ================================================================== *)

Section RelayFacts.

Import Relay.

Variable parseURL : jsstring -> option URL.
Variable network : jsstring -> thrown + Upstream.

(** When the validation refuses a URL. *)
Lemma isValidCertificateUrl_false (urlString : jsstring) :
  (existsb (fun pattern => test pattern urlString) ALLOWED_PATTERNS = false
   \/ parseURL urlString = None
   \/ exists url,
        parseURL urlString = Some url
        /\ (existsb (jseqb (protocol url)) [str "http:"; str "https:"]
            = false
            \/ existsb (fun domain => includes (hostname url) domain)
                       BLOCKED_DOMAINS = true
            \/ test private10 (hostname url) = true
            \/ test private172 (hostname url) = true
            \/ test private192 (hostname url) = true))
  <-> isValidCertificateUrl parseURL urlString = false.
Proof.
  unfold isValidCertificateUrl.
  destruct (parseURL urlString) as [url|];
    [|split; [reflexivity|intros _; right; left; reflexivity]].
  destruct (existsb (jseqb (protocol url)) [str "http:"; str "https:"])
    eqn:E1; cbn [negb].
  2: { split; [reflexivity|]. intros _. right; right. exists url.
       split; [reflexivity|]. left. exact E1. }
  destruct (existsb (fun domain => includes (hostname url) domain)
                    BLOCKED_DOMAINS) eqn:E2.
  { split; [reflexivity|]. intros _. right; right. exists url.
    split; [reflexivity|]. right; left. exact E2. }
  destruct (test private10 (hostname url)) eqn:E3; cbn [orb].
  { split; [reflexivity|]. intros _. right; right. exists url.
    split; [reflexivity|]. right; right; left. exact E3. }
  destruct (test private172 (hostname url)) eqn:E4; cbn [orb].
  { split; [reflexivity|]. intros _. right; right. exists url.
    split; [reflexivity|]. right; right; right; left. exact E4. }
  destruct (test private192 (hostname url)) eqn:E5; cbn [orb].
  { split; [reflexivity|]. intros _. right; right. exists url.
    split; [reflexivity|]. right; right; right; right. exact E5. }
  split.
  - intros [H | [H | (url' & Hu & H)]]; [exact H|discriminate|].
    injection Hu as <-. rewrite E1, E2, E3, E4, E5 in H.
    destruct H as [H | [H | [H | [H | H]]]]; discriminate.
  - intros H. left. exact H.
Qed.

(** How a GET request with a [url] parameter from an allowed origin is
    answered when the validation refuses the URL. *)
Lemma refused_url_response (request : Request) (targetUrl : jsstring) :
  method request = str "GET" ->
  isAllowedOrigin (origin request) = true ->
  urlParam request = Some targetUrl ->
  targetUrl <> [] ->
  isValidCertificateUrl parseURL targetUrl = false ->
  r_status (fst (fetch parseURL network request)) = 403%Z
  /\ (exists fields,
        r_body (fst (fetch parseURL network request)) = JsonBody fields)
  /\ snd (fetch parseURL network request) = [].
Proof.
  intros Hm Ho Hu Hne Hv. unfold fetch.
  rewrite Hm, Ho, Hu, Hv.
  change (jseqb (str "GET") (str "OPTIONS")) with false.
  change (jseqb (str "GET") (str "GET")) with true.
  cbn [negb]. destruct targetUrl as [|c t]; [now elim Hne|].
  cbn [fst snd r_status r_body]. repeat split. eexists; reflexivity.
Qed.

End RelayFacts.

(** C9, as stated, fails on two requests from an allowed origin: an empty
    [url] parameter, which matches none of the patterns, is answered 400;
    and [http://127.0.0.2/ca.crt], whose host is a loopback address, is
    fetched. *)
Lemma relay_counterexample :
  Relay.r_status
    (fst (Relay.fetch parseSample networkSample (getRequest []))) = 400%Z
  /\ existsb (fun pattern => test pattern []) Relay.ALLOWED_PATTERNS
     = false
  /\ Relay.r_status
       (fst (Relay.fetch parseSample networkSample
               (getRequest (str "http://127.0.0.2/ca.crt")))) = 200%Z
  /\ snd (Relay.fetch parseSample networkSample
            (getRequest (str "http://127.0.0.2/ca.crt")))
     = [str "http://127.0.0.2/ca.crt"].
Proof.
  vm_compute. repeat split; reflexivity.
Qed.

(** C9, amended.  For every GET request from an allow-listed origin with a
    non-empty [url] parameter: if the parameter matches none of the
    allow-list patterns, or does not parse as a URL, or its scheme is
    neither http nor https, or its host name contains [localhost],
    [127.0.0.1] or [0.0.0.0], or starts with [10.], [172.16.] to
    [172.31.] or [192.168.], then the relay answers 403 with a JSON error
    and fetches nothing. *)
Theorem relay_rejects_disallowed_url
        (parseURL : jsstring -> option Relay.URL)
        (network : jsstring -> thrown + Relay.Upstream)
        (request : Relay.Request) (targetUrl : jsstring) :
  Relay.method request = str "GET" ->
  Relay.isAllowedOrigin (Relay.origin request) = true ->
  Relay.urlParam request = Some targetUrl ->
  targetUrl <> [] ->
  (existsb (fun pattern => test pattern targetUrl) Relay.ALLOWED_PATTERNS
   = false
   \/ parseURL targetUrl = None
   \/ exists url,
        parseURL targetUrl = Some url
        /\ (existsb (jseqb (Relay.protocol url))
                    [str "http:"; str "https:"] = false
            \/ existsb (fun domain => includes (Relay.hostname url) domain)
                       Relay.BLOCKED_DOMAINS = true
            \/ test Relay.private10 (Relay.hostname url) = true
            \/ test Relay.private172 (Relay.hostname url) = true
            \/ test Relay.private192 (Relay.hostname url) = true)) ->
  Relay.r_status (fst (Relay.fetch parseURL network request)) = 403%Z
  /\ (exists fields,
        Relay.r_body (fst (Relay.fetch parseURL network request))
        = Relay.JsonBody fields)
  /\ snd (Relay.fetch parseURL network request) = [].
Proof.
  intros Hm Ho Hu Hne H.
  apply (refused_url_response parseURL network request targetUrl);
    try assumption.
  now apply isValidCertificateUrl_false.
Qed.

Lemma relay_rejects_disallowed_url_witness :
  Relay.r_status
    (fst (Relay.fetch parseSample networkSample
            (getRequest (str "http://192.168.1.1/ca.crt")))) = 403%Z
  /\ (exists fields,
        Relay.r_body
          (fst (Relay.fetch parseSample networkSample
                  (getRequest (str "http://192.168.1.1/ca.crt"))))
        = Relay.JsonBody fields)
  /\ snd (Relay.fetch parseSample networkSample
            (getRequest (str "http://192.168.1.1/ca.crt"))) = [].
Proof.
  apply (relay_rejects_disallowed_url parseSample networkSample
           (getRequest (str "http://192.168.1.1/ca.crt"))
           (str "http://192.168.1.1/ca.crt")).
  - reflexivity.
  - reflexivity.
  - reflexivity.
  - discriminate.
  - right; right.
    exists {| Relay.protocol := str "http:";
              Relay.hostname := str "192.168.1.1" |}.
    split; [reflexivity|].
    right; right; right; right. reflexivity.
Defined.

(* ================================================================== *)
(** * Further properties of the signature engine *)
(* ================================================================== *)

Import Derived.

(** ** hexToBytes *)

Section HexFacts.

Lemma pair_induction (P : jsstring -> Prop) :
  P [] -> (forall a, P [a]) ->
  (forall a b r, P r -> P (a :: b :: r)) ->
  forall hex, P hex.
Proof.
  intros H0 H1 H2 hex.
  assert (H : P hex /\ forall a, P (a :: hex)).
  { induction hex as [|b r [IH1 IH2]].
    - split; [exact H0|exact H1].
    - split; [apply IH2|]. intros a. apply H2, IH1. }
  exact (proj1 H).
Qed.

Lemma half_SS (n : nat) : Nat.div (S (S n)) 2 = S (Nat.div n 2).
Proof.
  change (S (S n)) with (1 * 2 + n).
  rewrite Nat.div_add_l by discriminate. reflexivity.
Qed.

Lemma store_past_end (bytes : list N) (k : nat) (v : N) :
  List.length bytes <= k -> store bytes k v = bytes.
Proof.
  revert k; induction bytes as [|h t IH]; intros k Hk; [reflexivity|].
  destruct k as [|k]; simpl in *; [lia|]. f_equal. apply IH. lia.
Qed.

Lemma store_at_end (pre post : list N) (x v : N) :
  store (pre ++ x :: post) (List.length pre) v = pre ++ v :: post.
Proof.
  induction pre as [|h t IH]; simpl; [reflexivity|]. now rewrite IH.
Qed.

Lemma fillBytes_append (hex : jsstring) :
  forall pre : list N,
    fillBytes hex (List.length pre)
      (pre ++ repeat 0%N (Nat.div (List.length hex) 2))
    = pre ++ pairValues hex.
Proof.
  induction hex as [|a|a b r IH] using pair_induction; intros pre.
  - reflexivity.
  - cbn [fillBytes pairValues List.length Nat.div Nat.divmod fst repeat].
    apply store_past_end. rewrite app_nil_r. lia.
  - cbn [fillBytes pairValues]. cbn [List.length]. rewrite half_SS.
    cbn [repeat]. rewrite store_at_end.
    replace (S (List.length pre))
      with (List.length (pre ++ [parseInt16 [a; b]]))
      by (rewrite length_app; simpl; lia).
    replace (pre ++ parseInt16 [a; b] :: repeat 0%N
               (Nat.div (List.length r) 2))
      with ((pre ++ [parseInt16 [a; b]])
            ++ repeat 0%N (Nat.div (List.length r) 2))
      by (rewrite <- app_assoc; reflexivity).
    rewrite IH, <- app_assoc. reflexivity.
Qed.

(** The filled buffer holds the values of the digit pairs. *)
Lemma hexToBytes_pairs (hex : jsstring) :
  hexToBytes hex = stripTrailingZeros (pairValues hex).
Proof.
  unfold hexToBytes. f_equal. exact (fillBytes_append hex []).
Qed.

Lemma pairValues_length (hex : jsstring) :
  List.length (pairValues hex) = Nat.div (List.length hex) 2.
Proof.
  induction hex as [|a|a b r IH] using pair_induction; try reflexivity.
  cbn [pairValues List.length]. now rewrite half_SS, IH.
Qed.

Lemma pairValues_unpaired (hex : jsstring) (d : N) :
  Nat.even (List.length hex) = true ->
  pairValues (hex ++ [d]) = pairValues hex.
Proof.
  induction hex as [|a|a b r IH] using pair_induction; intros He.
  - reflexivity.
  - discriminate.
  - cbn [app pairValues]. f_equal. apply IH. exact He.
Qed.

Lemma hexDigit_values (d : N) :
  (d < 16)%N ->
  hexVal (hexDigitUpper d) = d /\ hexVal (hexDigitLower d) = d.
Proof.
  intros H.
  assert (E : (d = 0 \/ d = 1 \/ d = 2 \/ d = 3 \/ d = 4 \/ d = 5
               \/ d = 6 \/ d = 7 \/ d = 8 \/ d = 9 \/ d = 10 \/ d = 11
               \/ d = 12 \/ d = 13 \/ d = 14 \/ d = 15)%N) by lia.
  repeat (destruct E as [-> | E]; [split; reflexivity|]).
  subst; split; reflexivity.
Qed.

Lemma hexPair_value (u1 u2 : bool) (b : N) :
  (b < 256)%N -> parseInt16 (hexPair u1 u2 b) = b.
Proof.
  intros Hb. unfold hexPair, parseInt16. cbn [fold_left].
  assert (H1 : (b / 16 < 16)%N)
    by (apply N.Div0.div_lt_upper_bound; lia).
  assert (H2 : (b mod 16 < 16)%N) by (apply N.mod_lt; lia).
  destruct (hexDigit_values _ H1) as [U1 L1].
  destruct (hexDigit_values _ H2) as [U2 L2].
  pose proof (N.div_mod b 16) as Hdm.
  destruct u1, u2; rewrite ?U1, ?L1, ?U2, ?L2; lia.
Qed.

Lemma pairValues_toHex (bytes : list N) :
  Forall (fun b => (b < 256)%N) bytes ->
  forall cases, pairValues (toHex cases bytes) = bytes.
Proof.
  induction 1 as [|b t Hb _ IH]; intros cases; [reflexivity|].
  cbn [toHex]. unfold hexPair at 1. cbn [app pairValues].
  change [?[x]; ?[y]] with (hexPair (fst (cases 0)) (snd (cases 0)) b).
  rewrite hexPair_value by exact Hb. now rewrite IH.
Qed.

End HexFacts.

Section StripFacts.

Lemma actualLength_zeros (bytes : list N) (n m : nat) :
  actualLength bytes n <= m < n -> nth m bytes 0%N = 0%N.
Proof.
  induction n as [|k IH]; intros [Hlo Hhi]; [lia|].
  simpl in Hlo. destruct (N.eqb (nth k bytes 0%N) 0) eqn:E.
  - destruct (Nat.eq_dec m k) as [->|Hne].
    + now apply N.eqb_eq.
    + apply IH. lia.
  - lia.
Qed.

Lemma skipn_zeros (bytes : list N) (k : nat) :
  (forall m, k <= m < List.length bytes -> nth m bytes 0%N = 0%N) ->
  skipn k bytes = repeat 0%N (List.length bytes - k).
Proof.
  revert k; induction bytes as [|b t IH]; intros k H.
  - now rewrite skipn_nil.
  - destruct k as [|k].
    + cbn [skipn List.length Nat.sub repeat].
      specialize (IH 0). rewrite Nat.sub_0_r in IH. cbn [skipn] in IH.
      rewrite <- IH.
      * f_equal. apply (H 0). simpl; lia.
      * intros m Hm. apply (H (S m)). simpl; lia.
    + cbn [skipn List.length Nat.sub]. apply IH.
      intros m Hm. apply (H (S m)). simpl; lia.
Qed.

End StripFacts.

(** X1.  Stripping removes zero bytes only, and only from the end: the
    stripped sequence followed by as many zero bytes as were removed is
    the sequence itself. *)
Theorem stripTrailingZeros_removes_zeros_only (bytes : list N) :
  stripTrailingZeros bytes
  ++ repeat 0%N
       (List.length bytes - List.length (stripTrailingZeros bytes))
  = bytes.
Proof.
  rewrite strip_length. unfold stripTrailingZeros.
  rewrite <- (skipn_zeros bytes (actualLength bytes (List.length bytes))).
  - apply firstn_skipn.
  - intros m Hm. exact (actualLength_zeros bytes _ m Hm).
Qed.

(** X2.  [hexToBytes] reads the digits two by two: writing bytes (below
    256) in hexadecimal, in any mix of upper and lower case, and reading
    them back gives the bytes without their trailing zero bytes; bytes
    that do not end in a zero byte come back unchanged. *)
Theorem hexToBytes_toHex (bytes : list N) (cases : nat -> bool * bool) :
  Forall (fun b => (b < 256)%N) bytes ->
  hexToBytes (toHex cases bytes) = stripTrailingZeros bytes
  /\ (bytes = [] \/ last bytes 0%N <> 0%N ->
      hexToBytes (toHex cases bytes) = bytes).
Proof.
  intros Hb.
  assert (E : hexToBytes (toHex cases bytes) = stripTrailingZeros bytes)
    by (rewrite hexToBytes_pairs, pairValues_toHex by exact Hb;
        reflexivity).
  split; [exact E|]. intros H. rewrite E. now apply strip_fixed.
Qed.

Lemma hexToBytes_toHex_witness :
  hexToBytes (toHex (fun k => (Nat.even k, true)) [48; 130; 0; 171]%N)
  = [48; 130; 0; 171]%N.
Proof.
  apply (proj2 (hexToBytes_toHex [48; 130; 0; 171]%N
                  (fun k => (Nat.even k, true))
                  ltac:(repeat constructor))).
  right. simpl. discriminate.
Defined.

(** X3.  The buffer is as long as half the number of digits, rounded
    down, so [hexToBytes] never returns more bytes than that; and a last
    digit without a partner is ignored. *)
Theorem hexToBytes_unpaired_digit (hex : jsstring) :
  List.length (hexToBytes hex) <= Nat.div (List.length hex) 2
  /\ (forall d : N,
        Nat.even (List.length hex) = true ->
        hexToBytes (hex ++ [d]) = hexToBytes hex).
Proof.
  split.
  - rewrite hexToBytes_pairs, strip_length, <- pairValues_length.
    apply actualLength_le.
  - intros d He. rewrite !hexToBytes_pairs.
    now rewrite pairValues_unpaired.
Qed.

Lemma hexToBytes_unpaired_digit_witness :
  hexToBytes (str "30820A" ++ [70%N]) = hexToBytes (str "30820A").
Proof.
  apply (proj2 (hexToBytes_unpaired_digit (str "30820A")) 70%N).
  reflexivity.
Defined.

(** ** The locator, further *)

Section LocatorRecords.

Variable pdfString : jsstring.

Lemma parseInt10_nonneg (s : jsstring) : (0 <= parseInt10 s)%Z.
Proof.
  unfold parseInt10.
  assert (H : forall acc, (0 <= acc)%Z ->
             (0 <= fold_left (fun a c => 10 * a + digitVal c) s acc)%Z).
  { induction s as [|c t IH]; intros acc Hacc; cbn [fold_left];
      [exact Hacc|].
    apply IH. unfold digitVal.
    pose proof (N2Z.is_nonneg (c - 48)). lia. }
  apply H. lia.
Qed.

(** What one turn of the loop does to the state, with the shape of the
    record it may add. *)
Lemma processMatch_record (st : Extraction) (sigMatch : rmatch) :
  processMatch pdfString st sigMatch = st
  \/ (exists e, processMatch pdfString st sigMatch = warn (bumped st) e)
  \/ (exists sig,
        wellFormed sig /\ index sig = sigIndex st
        /\ processMatch pdfString st sigMatch = pushed st sig).
Proof.
  unfold processMatch, loopBody.
  destruct (search byteRangeRegex (searchContext pdfString sigMatch))
    as [byteRangeMatch|]; [|left; reflexivity].
  destruct (search contentsRegex (searchContext pdfString sigMatch))
    as [contentsMatch|]; [|left; reflexivity].
  right.
  destruct (decodeText (search (textRegex "Reason") _)) as [e|reason];
    [left; exists e; reflexivity|].
  destruct (decodeText (search (textRegex "Location") _)) as [e|location];
    [left; exists e; reflexivity|].
  destruct (decodeText (search (textRegex "ContactInfo") _))
    as [e|contactInfo]; [left; exists e; reflexivity|].
  destruct (decodeText (search (textRegex "Name") _)) as [e|name];
    [left; exists e; reflexivity|].
  right. eexists. split; [|split].
  3: reflexivity. 2: reflexivity.
  unfold wellFormed. cbn [byteRange contents]. split; [reflexivity|].
  split.
  - repeat constructor; apply parseInt10_nonneg.
  - unfold hexToBytes. apply strip_end.
Qed.

Lemma scan_wellFormed (ms : list rmatch) (st : Extraction) :
  Forall wellFormed (signatures st) ->
  Forall wellFormed
    (signatures (fold_left (processMatch pdfString) ms st)).
Proof.
  revert st; induction ms as [|m ms IH]; intros st H; simpl; [exact H|].
  apply IH.
  destruct (processMatch_record st m)
    as [-> | [[e ->] | (sig & Hw & _ & ->)]]; simpl; auto.
  apply Forall_app; split; [exact H|]. constructor; [exact Hw|constructor].
Qed.

Lemma StronglySorted_snoc (l : list Z) (x : Z) :
  StronglySorted Z.lt l -> Forall (fun i => (i < x)%Z) l ->
  StronglySorted Z.lt (l ++ [x]).
Proof.
  induction l as [|a l IH]; intros Hs Hf; simpl.
  - constructor; constructor.
  - inversion Hs; subst. inversion Hf; subst.
    constructor; [now apply IH|].
    apply Forall_app; split; [assumption|]. constructor; [assumption|].
    constructor.
Qed.

Lemma processMatch_numbered (st : Extraction) (sigMatch : rmatch) :
  numbered st -> numbered (processMatch pdfString st sigMatch).
Proof.
  intros (Hn & Hs & Hf).
  destruct (processMatch_record st sigMatch)
    as [-> | [[e ->] | (sig & _ & Hi & ->)]].
  - repeat split; assumption.
  - unfold numbered, warn, bumped.
    cbn [signatures sigIndex warnings]. rewrite length_app.
    cbn [List.length]. repeat split; [lia|exact Hs|].
    eapply Forall_impl; [|exact Hf]. cbn beta. intros i Hi'. lia.
  - unfold numbered, pushed. cbn [signatures sigIndex warnings].
    rewrite length_app, map_app. cbn [List.length map].
    repeat split.
    + lia.
    + apply StronglySorted_snoc; [exact Hs|].
      eapply Forall_impl; [|exact Hf]. cbn beta. intros i Hi'. lia.
    + apply Forall_app; split.
      * eapply Forall_impl; [|exact Hf]. cbn beta. intros i Hi'. lia.
      * constructor; [|constructor].
        pose proof (Nat2Z.is_nonneg
                      (List.length (signatures st)
                       + List.length (warnings st))). lia.
Qed.

Lemma scan_numbered (ms : list rmatch) (st : Extraction) :
  numbered st -> numbered (fold_left (processMatch pdfString) ms st).
Proof.
  revert st; induction ms as [|m ms IH]; intros st H; simpl; [exact H|].
  apply IH, processMatch_numbered, H.
Qed.

End LocatorRecords.

Lemma StronglySorted_lt_NoDup (l : list Z) :
  StronglySorted Z.lt l -> NoDup l.
Proof.
  induction 1 as [|a l Hs IH Hf]; constructor; [|exact IH].
  intros Hin. rewrite Forall_forall in Hf. specialize (Hf a Hin). lia.
Qed.

Lemma StronglySorted_lt_position (l : list Z) :
  StronglySorted Z.lt l ->
  forall lo : Z,
    Forall (fun i => (lo <= i)%Z) l ->
    forall k x, nth_error l k = Some x -> (lo + Z.of_nat k <= x)%Z.
Proof.
  induction 1 as [|a l Hs IH Hf]; intros lo Hlo k x Hk.
  - destruct k; discriminate.
  - inversion Hlo; subst. destruct k as [|k].
    + injection Hk as <-. simpl. lia.
    + cbn [nth_error] in Hk.
      assert (H : (a + 1 + Z.of_nat k <= x)%Z).
      { apply IH; [|exact Hk].
        eapply Forall_impl; [|exact Hf]. cbn beta. intros i Hi. lia. }
      lia.
Qed.

(** X4.  Every record the locator returns has a byte range of exactly
    four numbers, none negative, and a payload that is empty or ends in a
    byte that is not zero. *)
Theorem extracted_records_wellFormed (pdfBytes : list N) :
  Forall wellFormed (extractSignatures pdfBytes).
Proof.
  unfold extractSignatures, scan. apply scan_wellFormed. constructor.
Qed.

(** X5.  Whatever happens during the scan, the indices of the records
    returned are strictly increasing, hence pairwise different; the
    record at position [k] has an index of at least [k]; and every index
    is below the number of records and diagnostics together. *)
Theorem extracted_indices_increasing (pdfBytes : list N) :
  let indices := map index (extractSignatures pdfBytes) in
  StronglySorted Z.lt indices
  /\ NoDup indices
  /\ (forall k i, nth_error indices k = Some i -> (Z.of_nat k <= i)%Z)
  /\ Forall (fun i =>
               (0 <= i < Z.of_nat
                           (List.length (extractSignatures pdfBytes)
                            + List.length (warnings (scan pdfBytes))))%Z)
            indices.
Proof.
  intros indices.
  assert (H : numbered (scan pdfBytes)).
  { unfold scan. apply scan_numbered.
    repeat split; cbn; constructor. }
  destruct H as (Hn & Hs & Hf). fold (extractSignatures pdfBytes) in *.
  fold indices in Hs, Hf. repeat split.
  - exact Hs.
  - now apply StronglySorted_lt_NoDup.
  - intros k i Hk.
    apply (StronglySorted_lt_position indices Hs 0%Z) in Hk; [lia|].
    eapply Forall_impl; [|exact Hf]. cbn beta. intros j Hj. lia.
  - rewrite <- Hn. exact Hf.
Qed.

Lemma extracted_indices_increasing_witness :
  (Z.of_nat 0 <= 1)%Z.
Proof.
  apply (proj1 (proj2 (proj2
           (extracted_indices_increasing undecodableReason))) 0 1%Z).
  vm_compute. reflexivity.
Defined.

(** X6.  A document that does not contain the slash byte has no marker:
    the locator returns nothing, counts zero and logs nothing. *)
Theorem no_slash_no_signature (pdfBytes : list N) :
  (forall b, In b pdfBytes -> b <> 47%N) ->
  extractSignatures pdfBytes = []
  /\ countSignatures pdfBytes = 0%Z
  /\ warnings (scan pdfBytes) = [].
Proof.
  intros H. pose proof (markers_without_slash pdfBytes H) as Hm.
  unfold countSignatures, extractSignatures, scan. rewrite Hm.
  repeat split.
Qed.

Lemma no_slash_no_signature_witness :
  extractSignatures (str "%PDF-1.7 plain text") = []
  /\ countSignatures (str "%PDF-1.7 plain text") = 0%Z
  /\ warnings (scan (str "%PDF-1.7 plain text")) = [].
Proof.
  apply (no_slash_no_signature (str "%PDF-1.7 plain text")).
  intros b Hb. cbn in Hb.
  repeat (destruct Hb as [<- | Hb]; [discriminate|]). destruct Hb.
Defined.

(** ** Text fields *)

Section TextFacts.

Lemma hexDigitUpper_isHexDigit (d : N) :
  (d < 16)%N -> isHexDigit (hexDigitUpper d) = true.
Proof.
  intros H.
  assert (E : (d = 0 \/ d = 1 \/ d = 2 \/ d = 3 \/ d = 4 \/ d = 5
               \/ d = 6 \/ d = 7 \/ d = 8 \/ d = 9 \/ d = 10 \/ d = 11
               \/ d = 12 \/ d = 13 \/ d = 14 \/ d = 15)%N) by lia.
  repeat (destruct E as [-> | E]; [reflexivity|]).
  subst; reflexivity.
Qed.

Lemma percentOctet_hex2 (c : N) (r : jsstring) :
  (c < 256)%N -> percentOctet (37%N :: hex2 c ++ r) = Some (c, r).
Proof.
  intros Hc. unfold hex2. cbn [app percentOctet].
  assert (H1 : (c / 16 < 16)%N)
    by (apply N.Div0.div_lt_upper_bound; lia).
  assert (H2 : (c mod 16 < 16)%N) by (apply N.mod_lt; lia).
  rewrite !hexDigitUpper_isHexDigit by assumption. cbn [andb].
  rewrite (proj1 (hexDigit_values _ H1)), (proj1 (hexDigit_values _ H2)).
  do 2 f_equal. pose proof (N.div_mod c 16). lia.
Qed.

Lemma escapeUnreserved_not_percent (c : N) :
  escapeUnreserved c = true -> N.eqb c 37 = false.
Proof.
  intros H. destruct (N.eqb_spec c 37) as [->|]; [discriminate|reflexivity].
Qed.

Lemma escapeChar_ascii (c : N) :
  (c < 128)%N ->
  (escapeChar c = [c] /\ N.eqb c 37 = false)
  \/ escapeChar c = 37%N :: hex2 c.
Proof.
  intros Hc. unfold escapeChar.
  destruct (escapeUnreserved c) eqn:Eu.
  - left. split; [reflexivity|now apply escapeUnreserved_not_percent].
  - right. assert (Hlt : N.ltb c 256 = true) by (apply N.ltb_lt; lia).
    now rewrite Hlt.
Qed.

Lemma decodeLoop_escape_ascii (s : jsstring) :
  Forall (fun c => (c < 128)%N) s ->
  forall fuel, List.length (escape s) <= fuel ->
               decodeLoop fuel (escape s) = inr s.
Proof.
  induction 1 as [|c t Hc _ IH]; intros fuel Hfuel.
  - destruct fuel; reflexivity.
  - change (escape (c :: t)) with (escapeChar c ++ escape t) in *.
    rewrite length_app in Hfuel.
    destruct (escapeChar_ascii c Hc) as [[E Hp] | E]; rewrite E in *;
      cbn [List.length] in Hfuel;
      (destruct fuel as [|fuel]; [lia|]).
    + cbn [app decodeLoop]. rewrite Hp.
      rewrite IH by lia. reflexivity.
    + change ((37%N :: hex2 c) ++ escape t)
        with (37%N :: hex2 c ++ escape t).
      cbn [decodeLoop]. change (N.eqb 37 37) with true. cbn iota.
      rewrite (percentOctet_hex2 c) by lia.
      assert (Hb : N.ltb c 128 = true) by (apply N.ltb_lt; exact Hc).
      rewrite Hb.
      rewrite IH by (unfold hex2 in Hfuel; cbn [List.length] in Hfuel;
                     lia).
      reflexivity.
Qed.

End TextFacts.

(** X7.  A text field made of ASCII characters is returned as it stands:
    [decodeURIComponent(escape(text))] is [text], and no exception is
    raised for it. *)
Theorem ascii_text_kept (text : jsstring) :
  Forall (fun c => (c < 128)%N) text ->
  decodeURIComponent (escape text) = inr text
  /\ (forall m : rmatch,
        group m 1 = text -> decodeText (Some m) = inr (Some text)).
Proof.
  intros H.
  assert (E : decodeURIComponent (escape text) = inr text)
    by (apply decodeLoop_escape_ascii; [exact H|apply le_n]).
  split; [exact E|].
  intros m Hm. unfold decodeText. rewrite Hm, E. reflexivity.
Qed.

Lemma ascii_text_kept_witness :
  decodeURIComponent (escape (str "Approved (v2) 100%"))
  = inr (str "Approved (v2) 100%").
Proof.
  apply (proj1 (ascii_text_kept (str "Approved (v2) 100%")
                  ltac:(repeat constructor))).
Defined.

(** ** The validator, further *)

Ltac coverage_keeps :=
  unfold coverage;
  repeat match goal with
  | |- context [match ?x with _ => _ end] => destruct x
  end;
  reflexivity.

Section CoverageKeeps.

Variables (signature : ExtractedSignature) (pdfBytes : list N)
          (result : Result.t).

Lemma coverage_errorMessage :
  Result.errorMessage (coverage signature pdfBytes result)
  = Result.errorMessage result.
Proof. coverage_keeps. Qed.

Lemma coverage_reason :
  Result.reason (coverage signature pdfBytes result)
  = Result.reason result.
Proof. coverage_keeps. Qed.

Lemma coverage_location :
  Result.location (coverage signature pdfBytes result)
  = Result.location result.
Proof. coverage_keeps. Qed.

Lemma coverage_contactInfo :
  Result.contactInfo (coverage signature pdfBytes result)
  = Result.contactInfo result.
Proof. coverage_keeps. Qed.

Lemma coverage_byteRange :
  Result.byteRange (coverage signature pdfBytes result)
  = Result.byteRange result.
Proof. coverage_keeps. Qed.

Lemma coverage_isSelfSigned :
  Result.isSelfSigned (coverage signature pdfBytes result)
  = Result.isSelfSigned result.
Proof. coverage_keeps. Qed.

Lemma coverage_signerName :
  Result.signerName (coverage signature pdfBytes result)
  = Result.signerName result.
Proof. coverage_keeps. Qed.

Lemma coverage_signerEmail :
  Result.signerEmail (coverage signature pdfBytes result)
  = Result.signerEmail result.
Proof. coverage_keeps. Qed.

Lemma coverage_issuer :
  Result.issuer (coverage signature pdfBytes result)
  = Result.issuer result.
Proof. coverage_keeps. Qed.

Lemma coverage_serialNumber :
  Result.serialNumber (coverage signature pdfBytes result)
  = Result.serialNumber result.
Proof. coverage_keeps. Qed.

Lemma coverage_signatureDate :
  Result.signatureDate (coverage signature pdfBytes result)
  = Result.signatureDate result.
Proof. coverage_keeps. Qed.

Lemma coverage_algorithms :
  Result.algorithms (coverage signature pdfBytes result)
  = Result.algorithms result.
Proof. coverage_keeps. Qed.

End CoverageKeeps.

Ltac past_coverage :=
  through_coverage;
  rewrite ?coverage_errorMessage, ?coverage_reason, ?coverage_location,
    ?coverage_contactInfo, ?coverage_byteRange, ?coverage_isSelfSigned,
    ?coverage_signerName, ?coverage_signerEmail, ?coverage_issuer,
    ?coverage_serialNumber, ?coverage_signatureDate,
    ?coverage_algorithms.

(** X8.  A result carries an error message exactly when it is not valid:
    valid results have none, results that are not valid have one. *)
Theorem errorMessage_iff_invalid (F : Library) (now : Date)
        (signature : ExtractedSignature) (pdfBytes : list N)
        (trustedCert : option Certificate) :
  let result := validateSignature F now signature pdfBytes trustedCert in
  (Result.isValid result = true <-> Result.errorMessage result = None)
  /\ (Result.isValid result = false <->
      exists m, Result.errorMessage result = Some m).
Proof.
  validator_paths; cbn; past_coverage; cbn; split; split;
    intros H; try reflexivity; try discriminate H;
    try (eexists; reflexivity);
    destruct H as [m H]; discriminate H.
Qed.

(** X9.  On every path the result repeats what the extracted signature
    says of itself: its index, its byte range and its reason, location
    and contact texts. *)
Theorem result_echoes_signature (F : Library) (now : Date)
        (signature : ExtractedSignature) (pdfBytes : list N)
        (trustedCert : option Certificate) :
  let result := validateSignature F now signature pdfBytes trustedCert in
  Result.signatureIndex result = index signature
  /\ Result.byteRange result = Some (byteRange signature)
  /\ Result.reason result = reason signature
  /\ Result.location result = location signature
  /\ Result.contactInfo result = contactInfo signature.
Proof.
  validator_paths; cbn; past_coverage; repeat split; reflexivity.
Qed.

(** X10.  When the payload does not decode, the result is the default
    record with the message of the thrown error (or the fixed text for a
    thrown value that is no error) and nothing else changed: no
    certificate field, flag, algorithm name or coverage is filled in. *)
Theorem decode_failure_is_default (F : Library) (now : Date)
        (signature : ExtractedSignature) (pdfBytes : list N)
        (trustedCert : option Certificate) (e : thrown) :
  fromDer F (contents signature) = inl e
  \/ (exists asn1, fromDer F (contents signature) = inr asn1
                   /\ messageFromAsn1 F asn1 = inl e) ->
  validateSignature F now signature pdfBytes trustedCert
  = Result.set_errorMessage
      (Some (match e with
             | JsError message => message
             | JsOther => str "Failed to parse signature"
             end))
      (defaultResult signature).
Proof.
  unfold validateSignature, tryBlock.
  intros [He | (asn1 & Ha & He)]; [rewrite He|rewrite Ha, He];
    reflexivity.
Qed.

Lemma decode_failure_is_default_witness :
  validateSignature (library [aliceCert]) midTime
    (signatureWith badPayload [0; 100; 200; 50]%Z) document250
    (Some rootCert)
  = Result.set_errorMessage (Some (str "Too few bytes to parse DER."))
      (defaultResult (signatureWith badPayload [0; 100; 200; 50]%Z)).
Proof.
  apply (decode_failure_is_default (library [aliceCert]) midTime
           (signatureWith badPayload [0; 100; 200; 50]%Z) document250
           (Some rootCert) derError).
  left. reflexivity.
Defined.

(** X11.  When the payload decodes but embeds no certificate (the list is
    absent or empty), the result is the default record with the message
    'No certificates found in signature'; it is not valid, and the
    coverage is not computed. *)
Theorem no_certificate_is_default (F : Library) (now : Date)
        (signature : ExtractedSignature) (pdfBytes : list N)
        (trustedCert : option Certificate) (asn1 : Asn1 F) (p7 : P7) :
  fromDer F (contents signature) = inr asn1 ->
  messageFromAsn1 F asn1 = inr p7 ->
  certificates p7 = None \/ certificates p7 = Some [] ->
  validateSignature F now signature pdfBytes trustedCert
  = Result.set_errorMessage
      (Some (str "No certificates found in signature"))
      (defaultResult signature).
Proof.
  intros HD HM HC. unfold validateSignature, tryBlock.
  rewrite HD, HM. destruct HC as [-> | ->]; reflexivity.
Qed.

Lemma no_certificate_is_default_witness :
  validateSignature (library []) midTime
    (signatureWith goodPayload [0; 100; 200; 50]%Z) document250 None
  = Result.set_errorMessage
      (Some (str "No certificates found in signature"))
      (defaultResult (signatureWith goodPayload [0; 100; 200; 50]%Z)).
Proof.
  apply (no_certificate_is_default (library []) midTime
           (signatureWith goodPayload [0; 100; 200; 50]%Z) document250
           None goodPayload
           {| certificates := Some []; authenticatedAttributes := None |}
           eq_refl eq_refl).
  right. reflexivity.
Defined.

(** X12.  Whatever the result, a coverage of [full] means that the byte
    range has four elements and its second span ends exactly at the end
    of the document, and a coverage of [partial] that it ends before; in
    both cases the result is valid. *)
Theorem coverage_sound (F : Library) (now : Date)
        (signature : ExtractedSignature) (pdfBytes : list N)
        (trustedCert : option Certificate) :
  let result := validateSignature F now signature pdfBytes trustedCert in
  let L := Z.of_nat (List.length pdfBytes) in
  (Result.coverageStatus result = full ->
   Result.isValid result = true
   /\ exists start1 len1 start2 len2,
        byteRange signature = [start1; len1; start2; len2]
        /\ (start2 + len2 = L)%Z)
  /\ (Result.coverageStatus result = partial ->
      Result.isValid result = true
      /\ exists start1 len1 start2 len2,
           byteRange signature = [start1; len1; start2; len2]
           /\ (start2 + len2 < L)%Z).
Proof.
  intros result L.
  assert (Hcases :
    Result.coverageStatus result <> unknown ->
    Result.isValid result = true
    /\ Result.coverageStatus result
       = match byteRange signature with
         | [start1; len1; start2; len2] =>
             if Z.eqb (start2 + len2) L then full
             else if Z.ltb (start2 + len2) L then partial else unknown
         | _ => unknown
         end).
  { intros Hne. unfold result in *.
    destruct (Result.isValid
                (validateSignature F now signature pdfBytes trustedCert))
      eqn:Hv.
    - split; [reflexivity|].
      rewrite (valid_coverage F _ _ _ _ Hv), coverage_status.
      reflexivity.
    - elim Hne. now apply invalid_coverage. }
  split; intros Hc; (destruct Hcases as [Hv Hs];
    [rewrite Hc; discriminate|]); (split; [exact Hv|]);
    rewrite Hc in Hs;
    destruct (byteRange signature) as [|a [|b [|c [|d [|x t]]]]];
    try discriminate Hs;
    exists a, b, c, d; (split; [reflexivity|]);
    destruct (Z.eqb_spec (c + d) L); try discriminate Hs;
    try assumption;
    destruct (Z.ltb_spec (c + d) L); try discriminate Hs; assumption.
Qed.

Lemma coverage_sound_witness :
  Result.isValid
    (validateSignature (library [aliceCert]) midTime
       (signatureWith goodPayload [0; 100; 200; 50]%Z) document250 None)
  = true
  /\ exists start1 len1 start2 len2,
       byteRange (signatureWith goodPayload [0; 100; 200; 50]%Z)
       = [start1; len1; start2; len2]
       /\ (start2 + len2 = Z.of_nat (List.length document250))%Z.
Proof.
  apply (proj1 (coverage_sound (library [aliceCert]) midTime
                  (signatureWith goodPayload [0; 100; 200; 50]%Z)
                  document250 None)).
  reflexivity.
Defined.

Section Identity.

Variable F : Library.

Lemma jseqb_refl (a : jsstring) : jseqb a a = true.
Proof.
  induction a as [|x t IH]; simpl; [reflexivity|].
  now rewrite N.eqb_refl, IH.
Qed.

Lemma nameMatches_refl (n : Name) : nameMatches n n = true.
Proof.
  induction n as [|a t IH]; simpl; [reflexivity|].
  now rewrite !jseqb_refl, IH.
Qed.

End Identity.

(** X13.  With the library's [isIssuer], a payload that decodes and
    embeds a certificate always gives a valid result, and [isSelfSigned]
    says whether the issuer name of the first certificate matches its own
    subject name; a certificate whose issuer is its subject is flagged
    self-signed. *)
Theorem isSelfSigned_spec (F : Library) (now : Date)
        (signature : ExtractedSignature) (pdfBytes : list N)
        (trustedCert : option Certificate) (asn1 : Asn1 F) (p7 : P7)
        (signerCert : Certificate) (rest : list Certificate) :
  (forall x y, isIssuer F x y = forge_isIssuer x y) ->
  fromDer F (contents signature) = inr asn1 ->
  messageFromAsn1 F asn1 = inr p7 ->
  certificates p7 = Some (signerCert :: rest) ->
  let result := validateSignature F now signature pdfBytes trustedCert in
  Result.isValid result = true
  /\ Result.isSelfSigned result
     = nameMatches (Forge.issuer signerCert) (subject signerCert)
  /\ (Forge.issuer signerCert = subject signerCert ->
      Result.isSelfSigned result = true).
Proof.
  intros HF HD HM HC result.
  assert (E : Result.isValid result = true
              /\ Result.isSelfSigned result
                 = nameMatches (Forge.issuer signerCert)
                               (subject signerCert)).
  { unfold result, validateSignature, tryBlock.
    rewrite HD, HM, HC, HF. unfold forge_isIssuer at 1.
    validator_paths; cbn; past_coverage; split; reflexivity. }
  destruct E as [Hv Hs]. repeat split; [exact Hv|exact Hs|].
  intros Hi. rewrite Hs, Hi. apply nameMatches_refl.
Qed.

Lemma isSelfSigned_spec_witness :
  Result.isSelfSigned
    (validateSignature (library [rootCert]) midTime
       (signatureWith goodPayload [0; 100; 200; 50]%Z) document250 None)
  = true.
Proof.
  apply (proj2 (proj2
    (isSelfSigned_spec (library [rootCert]) midTime
       (signatureWith goodPayload [0; 100; 200; 50]%Z) document250 None
       goodPayload
       {| certificates := Some [rootCert];
          authenticatedAttributes := None |}
       rootCert [] (fun x y => eq_refl) eq_refl eq_refl eq_refl))).
  reflexivity.
Defined.

(** X14.  An exception raised while the trust is evaluated stays inside
    that evaluation: the result is not trusted, but it is valid and
    carries no error message. *)
Theorem trust_exception_contained (F : Library) (now : Date)
        (signature : ExtractedSignature) (pdfBytes : list N)
        (trustedCert : Certificate) (asn1 : Asn1 F) (p7 : P7)
        (signerCert : Certificate) (rest : list Certificate)
        (selfSigned : bool) (e : thrown) :
  fromDer F (contents signature) = inr asn1 ->
  messageFromAsn1 F asn1 = inr p7 ->
  certificates p7 = Some (signerCert :: rest) ->
  isIssuer F signerCert signerCert = inr selfSigned ->
  trustEvaluation F trustedCert signerCert (signerCert :: rest) = inl e ->
  let result :=
    validateSignature F now signature pdfBytes (Some trustedCert) in
  Result.isTrusted result = false
  /\ Result.isValid result = true
  /\ Result.errorMessage result = None.
Proof.
  intros HD HM HC HS HT result.
  unfold result, validateSignature, tryBlock.
  rewrite HD, HM, HC, HS, HT.
  validator_paths; cbn; past_coverage; repeat split; reflexivity.
Qed.

Lemma trust_exception_contained_witness :
  Result.isTrusted
    (validateSignature (brittleLibrary [aliceCert]) midTime
       (signatureWith goodPayload [0; 100; 200; 50]%Z) document250
       (Some rootCert)) = false
  /\ Result.isValid
       (validateSignature (brittleLibrary [aliceCert]) midTime
          (signatureWith goodPayload [0; 100; 200; 50]%Z) document250
          (Some rootCert)) = true
  /\ Result.errorMessage
       (validateSignature (brittleLibrary [aliceCert]) midTime
          (signatureWith goodPayload [0; 100; 200; 50]%Z) document250
          (Some rootCert)) = None.
Proof.
  apply (trust_exception_contained (brittleLibrary [aliceCert]) midTime
           (signatureWith goodPayload [0; 100; 200; 50]%Z) document250
           rootCert goodPayload
           {| certificates := Some [aliceCert];
              authenticatedAttributes := None |}
           aliceCert [] true
           (JsError (str "Cannot read properties of undefined"))
           eq_refl eq_refl eq_refl eq_refl eq_refl).
Defined.

(** X15.  With the library's [isIssuer]: when the payload decodes and
    embeds certificates and a trusted certificate is supplied, the result
    is trusted exactly when the issuer name of the trusted certificate
    matches the subject name of an embedded certificate, or the trusted
    certificate has the serial number of an embedded certificate. *)
Theorem isTrusted_with_library (F : Library) (now : Date)
        (signature : ExtractedSignature) (pdfBytes : list N)
        (trustedCert : Certificate) (asn1 : Asn1 F) (p7 : P7)
        (signerCert : Certificate) (rest : list Certificate) :
  (forall x y, isIssuer F x y = forge_isIssuer x y) ->
  fromDer F (contents signature) = inr asn1 ->
  messageFromAsn1 F asn1 = inr p7 ->
  certificates p7 = Some (signerCert :: rest) ->
  Result.isTrusted
    (validateSignature F now signature pdfBytes (Some trustedCert))
  = existsb
      (fun cert =>
         nameMatches (Forge.issuer trustedCert) (subject cert)
         || jseqb (Forge.serialNumber cert)
                  (Forge.serialNumber trustedCert))
      (signerCert :: rest).
Proof.
  intros HF HD HM HC.
  rewrite (isTrusted_evaluation F now signature pdfBytes trustedCert
             asn1 p7 signerCert rest
             (nameMatches (Forge.issuer signerCert) (subject signerCert))
             HD HM HC (HF _ _)).
  rewrite (trustEvaluation_forge F _ _ _ HF). cbn [existsb].
  destruct (nameMatches (Forge.issuer trustedCert) (subject signerCert));
    [reflexivity|].
  destruct (jseqb (Forge.serialNumber signerCert)
                  (Forge.serialNumber trustedCert)); reflexivity.
Qed.

Lemma isTrusted_with_library_witness :
  Result.isTrusted
    (validateSignature (library [aliceCert; rootCert]) midTime
       (signatureWith goodPayload [0; 100; 200; 50]%Z) document250
       (Some rootCert))
  = existsb
      (fun cert =>
         nameMatches (Forge.issuer rootCert) (subject cert)
         || jseqb (Forge.serialNumber cert) (Forge.serialNumber rootCert))
      [aliceCert; rootCert].
Proof.
  apply (isTrusted_with_library (library [aliceCert; rootCert]) midTime
           (signatureWith goodPayload [0; 100; 200; 50]%Z) document250
           rootCert goodPayload
           {| certificates := Some [aliceCert; rootCert];
              authenticatedAttributes := None |}
           aliceCert [rootCert] (fun x y => eq_refl)
           eq_refl eq_refl eq_refl).
Defined.

(** X16.  When the payload decodes, the self-signed check and the first
    [isIssuer] call of the trust check return, and the trusted
    certificate has the serial number of the signer certificate, the
    result is trusted. *)
Theorem same_serial_isTrusted (F : Library) (now : Date)
        (signature : ExtractedSignature) (pdfBytes : list N)
        (trustedCert : Certificate) (asn1 : Asn1 F) (p7 : P7)
        (signerCert : Certificate) (rest : list Certificate)
        (selfSigned issuerAnswer : bool) :
  fromDer F (contents signature) = inr asn1 ->
  messageFromAsn1 F asn1 = inr p7 ->
  certificates p7 = Some (signerCert :: rest) ->
  isIssuer F signerCert signerCert = inr selfSigned ->
  isIssuer F trustedCert signerCert = inr issuerAnswer ->
  Forge.serialNumber signerCert = Forge.serialNumber trustedCert ->
  Result.isTrusted
    (validateSignature F now signature pdfBytes (Some trustedCert))
  = true.
Proof.
  intros HD HM HC HS HI Hserial.
  rewrite (isTrusted_evaluation F now signature pdfBytes trustedCert
             asn1 p7 signerCert rest selfSigned HD HM HC HS).
  rewrite (same_serial_trusted F trustedCert signerCert rest
             issuerAnswer HI); [reflexivity|].
  rewrite Hserial. apply jseqb_refl.
Qed.

Lemma same_serial_isTrusted_witness :
  Result.isTrusted
    (validateSignature (library [aliceCert]) midTime
       (signatureWith goodPayload [0; 100; 200; 50]%Z) document250
       (Some aliceCert)) = true.
Proof.
  apply (same_serial_isTrusted (library [aliceCert]) midTime
           (signatureWith goodPayload [0; 100; 200; 50]%Z) document250
           aliceCert goodPayload
           {| certificates := Some [aliceCert];
              authenticatedAttributes := None |}
           aliceCert [] false false
           eq_refl eq_refl eq_refl eq_refl eq_refl eq_refl).
Defined.

(** X17.  When the payload decodes and embeds a certificate, the signer
    fields come from the first certificate, also when a later step
    throws: the signer name is the value of its subject CN (or
    'Unknown'), the issuer that of its issuer CN (or 'Unknown'), the
    e-mail address that of its subject E, else of emailAddress, and the
    serial number is copied. *)
Theorem signer_fields (F : Library) (now : Date)
        (signature : ExtractedSignature) (pdfBytes : list N)
        (trustedCert : option Certificate) (asn1 : Asn1 F) (p7 : P7)
        (signerCert : Certificate) (rest : list Certificate) :
  fromDer F (contents signature) = inr asn1 ->
  messageFromAsn1 F asn1 = inr p7 ->
  certificates p7 = Some (signerCert :: rest) ->
  let result := validateSignature F now signature pdfBytes trustedCert in
  Result.signerName result
  = match getField (subject signerCert) (str "CN") with
    | Some a => attr_value a
    | None => str "Unknown"
    end
  /\ Result.issuer result
     = match getField (Forge.issuer signerCert) (str "CN") with
       | Some a => attr_value a
       | None => str "Unknown"
       end
  /\ Result.signerEmail result
     = match getField (subject signerCert) (str "E") with
       | Some a => Some (attr_value a)
       | None =>
           option_map attr_value
             (getField (subject signerCert) (str "emailAddress"))
       end
  /\ Result.serialNumber result = Forge.serialNumber signerCert.
Proof.
  intros HD HM HC result.
  unfold result, validateSignature, tryBlock. rewrite HD, HM, HC.
  destruct (getField (subject signerCert) (str "E"));
    validator_paths; cbn; past_coverage; cbn;
    repeat split; reflexivity.
Qed.

Lemma signer_fields_witness :
  Result.signerName
    (validateSignature (library [aliceCert]) midTime
       (signatureWith goodPayload [0; 100; 200; 50]%Z) document250 None)
  = str "Alice".
Proof.
  apply (proj1
    (signer_fields (library [aliceCert]) midTime
       (signatureWith goodPayload [0; 100; 200; 50]%Z) document250 None
       goodPayload
       {| certificates := Some [aliceCert];
          authenticatedAttributes := None |}
       aliceCert [] eq_refl eq_refl eq_refl)).
Defined.

Section AlgorithmNames.

Lemma jseqb_eq (a b : jsstring) : jseqb a b = true <-> a = b.
Proof.
  split; [|intros ->; apply jseqb_refl].
  revert b; induction a as [|x a IH]; intros [|y b] H; simpl in H;
    try discriminate; [reflexivity|].
  apply andb_true_iff in H. destruct H as [Hx Hr].
  apply N.eqb_eq in Hx. now rewrite Hx, (IH b Hr).
Qed.

Lemma lookup_plain (table : list (jsstring * jsstring)) (oid : jsstring) :
  plainTable table = true ->
  match lookup table oid with
  | Some v => v <> str "Unknown" /\ oid <> []
  | None => True
  end.
Proof.
  induction table as [|[k v] t IH]; intros Hp; simpl; [exact I|].
  simpl in Hp. apply andb_true_iff in Hp. destruct Hp as [Hkv Ht].
  apply andb_true_iff in Hkv. destruct Hkv as [Hv Hk].
  destruct (jseqb k oid) eqn:E; [|exact (IH Ht)].
  apply jseqb_eq in E. subst oid. split.
  - intros ->. rewrite jseqb_refl in Hv. discriminate.
  - intros ->. discriminate.
Qed.

Lemma algorithmName_unknown (table : list (jsstring * jsstring))
      (oid : jsstring) :
  plainTable table = true ->
  isOidText oid = true ->
  (algorithmName table oid = str "Unknown" <-> oid = []).
Proof.
  intros Hp Ho. unfold algorithmName.
  pose proof (lookup_plain table oid Hp) as Hl.
  destruct (lookup table oid) as [v|].
  - destruct Hl as [Hv Hne]. split; intros H; contradiction.
  - destruct oid as [|c t]; [split; reflexivity|].
    split; [|discriminate]. intros H. rewrite H in Ho. discriminate Ho.
Qed.

End AlgorithmNames.

(** X18.  For an object identifier as the library gives it (digits and
    dots, or nothing), the digest and signature algorithm names are
    'Unknown' only when the identifier is absent; an identifier that is
    not in the table is passed through as its own name. *)
Theorem algorithm_names (oid : jsstring) :
  isOidText oid = true ->
  (getDigestAlgorithmName oid = str "Unknown" <-> oid = [])
  /\ (getSignatureAlgorithmName oid = str "Unknown" <-> oid = [])
  /\ (lookup digestAlgorithms oid = None -> oid <> [] ->
      getDigestAlgorithmName oid = oid)
  /\ (lookup signatureAlgorithms oid = None -> oid <> [] ->
      getSignatureAlgorithmName oid = oid).
Proof.
  intros Ho. repeat split;
    try (apply (algorithmName_unknown digestAlgorithms oid eq_refl Ho));
    try (apply (algorithmName_unknown signatureAlgorithms oid eq_refl Ho)).
  - intros Hl Hne. unfold getDigestAlgorithmName, algorithmName.
    rewrite Hl. destruct oid; [now elim Hne|reflexivity].
  - intros Hl Hne. unfold getSignatureAlgorithmName, algorithmName.
    rewrite Hl. destruct oid; [now elim Hne|reflexivity].
Qed.

Lemma algorithm_names_witness :
  getDigestAlgorithmName (str "1.2.840.10045.4.3.2")
  = str "1.2.840.10045.4.3.2".
Proof.
  apply (proj1 (proj2 (proj2
    (algorithm_names (str "1.2.840.10045.4.3.2") eq_refl)))).
  - reflexivity.
  - discriminate.
Defined.



(* ================================================================== *)
(** * Further properties of the certificate relay *)
(* ================================================================== *)

Section RelayGuards.

Import Relay.

Variable parseURL : jsstring -> option URL.
Variable network : jsstring -> thrown + Upstream.

Lemma startsWith_app (s p suffix : jsstring) :
  startsWith s p = true -> startsWith (s ++ suffix) p = true.
Proof.
  revert s; induction p as [|c p IH]; intros s H;
    [destruct (s ++ suffix); reflexivity|].
  destruct s as [|d s]; [discriminate|]. simpl in *.
  apply andb_true_iff in H. destruct H as [H1 H2].
  now rewrite H1, (IH s H2).
Qed.

End RelayGuards.

(** X20.  The origin check is a prefix test: no origin and the empty
    origin are refused, and an origin that is accepted stays accepted
    with anything appended to it. *)
Theorem isAllowedOrigin_prefix :
  Relay.isAllowedOrigin None = false
  /\ Relay.isAllowedOrigin (Some []) = false
  /\ (forall origin suffix : jsstring,
        Relay.isAllowedOrigin (Some origin) = true ->
        Relay.isAllowedOrigin (Some (origin ++ suffix)) = true).
Proof.
  repeat split. intros origin suffix H.
  unfold Relay.isAllowedOrigin in *.
  destruct origin as [|c t]; [discriminate|].
  change ((c :: t) ++ suffix) with (c :: (t ++ suffix)).
  apply existsb_exists in H. destruct H as (allowed & Hin & Hs).
  apply existsb_exists. exists allowed. split; [exact Hin|].
  exact (startsWith_app (c :: t) _ suffix Hs).
Qed.

Lemma isAllowedOrigin_prefix_witness :
  Relay.isAllowedOrigin
    (Some (str "https://Wrapdf.com" ++ str ".attacker.example")) = true.
Proof.
  apply (proj2 (proj2 isAllowedOrigin_prefix) (str "https://Wrapdf.com")
           (str ".attacker.example")).
  reflexivity.
Defined.

(** X21.  A preflight request (method OPTIONS) is answered 204 without a
    body and with the CORS headers, whatever its origin and parameters,
    and nothing is fetched. *)
Theorem options_preflight (parseURL : jsstring -> option Relay.URL)
        (network : jsstring -> thrown + Relay.Upstream)
        (request : Relay.Request) :
  Relay.method request = str "OPTIONS" ->
  Relay.fetch parseURL network request
  = ({| Relay.r_status := 204;
        Relay.r_headers := Relay.corsHeaders (Relay.origin request);
        Relay.r_body := Relay.NoBody |}, []).
Proof.
  intros Hm. unfold Relay.fetch. rewrite Hm. reflexivity.
Qed.

Lemma options_preflight_witness :
  Relay.r_status
    (fst (Relay.fetch parseSample networkSample
            {| Relay.method := str "OPTIONS";
               Relay.origin := Some (str "https://elsewhere.example");
               Relay.urlParam := None |})) = 204%Z.
Proof.
  rewrite (options_preflight parseSample networkSample
             {| Relay.method := str "OPTIONS";
                Relay.origin := Some (str "https://elsewhere.example");
                Relay.urlParam := None |} eq_refl).
  reflexivity.
Defined.

(** X22.  A request that is not a preflight and whose origin is not
    allowed is answered 403 before its method and its parameter are
    looked at; that answer has a JSON body, no CORS header, and nothing
    is fetched. *)
Theorem forbidden_origin_first (parseURL : jsstring -> option Relay.URL)
        (network : jsstring -> thrown + Relay.Upstream)
        (request : Relay.Request) :
  Relay.method request <> str "OPTIONS" ->
  Relay.isAllowedOrigin (Relay.origin request) = false ->
  let answer := Relay.fetch parseURL network request in
  Relay.r_status (fst answer) = 403%Z
  /\ Relay.r_headers (fst answer) = Relay.jsonHeader
  /\ (exists fields, Relay.r_body (fst answer) = Relay.JsonBody fields)
  /\ snd answer = [].
Proof.
  intros Hm Ho answer. unfold answer, Relay.fetch.
  destruct (jseqb (Relay.method request) (str "OPTIONS")) eqn:E.
  - apply jseqb_eq in E. contradiction.
  - rewrite Ho. cbn. repeat split. eexists; reflexivity.
Qed.

Lemma forbidden_origin_first_witness :
  Relay.r_status
    (fst (Relay.fetch parseSample networkSample
            {| Relay.method := str "DELETE";
               Relay.origin := Some (str "https://elsewhere.example");
               Relay.urlParam :=
                 Some (str "https://ca.example.org/certs/root.crt") |}))
  = 403%Z.
Proof.
  apply (forbidden_origin_first parseSample networkSample
           {| Relay.method := str "DELETE";
              Relay.origin := Some (str "https://elsewhere.example");
              Relay.urlParam :=
                Some (str "https://ca.example.org/certs/root.crt") |}).
  - discriminate.
  - reflexivity.
Defined.

(** X23.  From an allowed origin, a method other than GET and OPTIONS is
    answered 405, and a GET request without a [url] parameter, or with an
    empty one, is answered 400; nothing is fetched in either case. *)
Theorem method_and_parameter_guards
        (parseURL : jsstring -> option Relay.URL)
        (network : jsstring -> thrown + Relay.Upstream)
        (request : Relay.Request) :
  Relay.isAllowedOrigin (Relay.origin request) = true ->
  let answer := Relay.fetch parseURL network request in
  (Relay.method request <> str "OPTIONS" ->
   Relay.method request <> str "GET" ->
   Relay.r_status (fst answer) = 405%Z /\ snd answer = [])
  /\ (Relay.method request = str "GET" ->
      Relay.urlParam request = None \/ Relay.urlParam request = Some [] ->
      Relay.r_status (fst answer) = 400%Z /\ snd answer = []).
Proof.
  intros Ho answer. unfold answer, Relay.fetch. rewrite Ho. split.
  - intros H1 H2.
    destruct (jseqb (Relay.method request) (str "OPTIONS")) eqn:E1;
      [apply jseqb_eq in E1; contradiction|].
    destruct (jseqb (Relay.method request) (str "GET")) eqn:E2;
      [apply jseqb_eq in E2; contradiction|].
    split; reflexivity.
  - intros Hm Hu. rewrite Hm.
    change (jseqb (str "GET") (str "OPTIONS")) with false.
    change (jseqb (str "GET") (str "GET")) with true. cbn [negb].
    destruct Hu as [-> | ->]; split; reflexivity.
Qed.

Lemma method_and_parameter_guards_witness :
  Relay.r_status
    (fst (Relay.fetch parseSample networkSample
            {| Relay.method := str "POST";
               Relay.origin := Some (str "https://Wrapdf.com");
               Relay.urlParam := None |})) = 405%Z
  /\ snd (Relay.fetch parseSample networkSample
            {| Relay.method := str "POST";
               Relay.origin := Some (str "https://Wrapdf.com");
               Relay.urlParam := None |}) = [].
Proof.
  apply (proj1 (method_and_parameter_guards parseSample networkSample
                  {| Relay.method := str "POST";
                     Relay.origin := Some (str "https://Wrapdf.com");
                     Relay.urlParam := None |} eq_refl));
    discriminate.
Defined.

(** X24.  The relay asks the network for at most one URL, and only for
    the [url] parameter of a GET request from an allowed origin that
    passed the validation: it parses, its scheme is http or https, its
    host name contains none of the blocked names and matches none of the
    private prefixes, and it matches an allow-list pattern. *)
Theorem fetch_only_validated (parseURL : jsstring -> option Relay.URL)
        (network : jsstring -> thrown + Relay.Upstream)
        (request : Relay.Request) :
  snd (Relay.fetch parseURL network request) <> [] ->
  Relay.method request = str "GET"
  /\ Relay.isAllowedOrigin (Relay.origin request) = true
  /\ exists targetUrl url,
       Relay.urlParam request = Some targetUrl
       /\ targetUrl <> []
       /\ snd (Relay.fetch parseURL network request) = [targetUrl]
       /\ parseURL targetUrl = Some url
       /\ existsb (jseqb (Relay.protocol url))
                  [str "http:"; str "https:"] = true
       /\ existsb (fun domain => includes (Relay.hostname url) domain)
                  Relay.BLOCKED_DOMAINS = false
       /\ test Relay.private10 (Relay.hostname url) = false
       /\ test Relay.private172 (Relay.hostname url) = false
       /\ test Relay.private192 (Relay.hostname url) = false
       /\ existsb (fun pattern => test pattern targetUrl)
                  Relay.ALLOWED_PATTERNS = true.
Proof.
  unfold Relay.fetch.
  destruct (jseqb (Relay.method request) (str "OPTIONS"));
    [intros H; now elim H|].
  destruct (Relay.isAllowedOrigin (Relay.origin request));
    cbn [negb]; [|intros H; now elim H].
  destruct (jseqb (Relay.method request) (str "GET")) eqn:Em;
    cbn [negb]; [|intros H; now elim H].
  apply jseqb_eq in Em.
  destruct (Relay.urlParam request) as [[|c t]|];
    try (intros H; now elim H).
  destruct (Relay.isValidCertificateUrl parseURL (c :: t)) eqn:Ev;
    cbn [negb]; [|intros H; now elim H].
  intros _. split; [exact Em|]. split; [reflexivity|].
  unfold Relay.isValidCertificateUrl in Ev.
  destruct (parseURL (c :: t)) as [url|] eqn:Ep; [|discriminate].
  destruct (existsb (jseqb (Relay.protocol url))
                    [str "http:"; str "https:"]) eqn:E1;
    cbn [negb] in Ev; [|discriminate].
  destruct (existsb (fun domain => includes (Relay.hostname url) domain)
                    Relay.BLOCKED_DOMAINS) eqn:E2; [discriminate|].
  destruct (test Relay.private10 (Relay.hostname url)) eqn:E3;
    [discriminate|].
  destruct (test Relay.private172 (Relay.hostname url)) eqn:E4;
    [discriminate|].
  destruct (test Relay.private192 (Relay.hostname url)) eqn:E5;
    [discriminate|].
  cbn [orb] in Ev.
  exists (c :: t), url.
  split; [reflexivity|]. split; [discriminate|].
  split.
  - destruct (network (c :: t)) as [e|response]; [reflexivity|].
    destruct (Relay.ok response); cbn [negb]; [|reflexivity].
    destruct (Relay.arrayBuffer response); reflexivity.
  - repeat split; assumption.
Qed.

Lemma fetch_only_validated_witness :
  Relay.method
    (getRequest (str "https://ca.example.org/certs/root.crt"))
  = str "GET"
  /\ Relay.isAllowedOrigin
       (Relay.origin
          (getRequest (str "https://ca.example.org/certs/root.crt")))
     = true.
Proof.
  destruct (fetch_only_validated parseSample networkSample
              (getRequest (str "https://ca.example.org/certs/root.crt")))
    as (Hm & Ho & _).
  - vm_compute. discriminate.
  - split; [exact Hm|exact Ho].
Defined.



(** X26.  Every answer to a preflight, and every answer to a request
    from an allowed origin, carries the CORS headers, with the request's
    origin (or [*] when it has none) as the allowed origin. *)
Theorem answers_carry_cors (parseURL : jsstring -> option Relay.URL)
        (network : jsstring -> thrown + Relay.Upstream)
        (request : Relay.Request) :
  Relay.method request = str "OPTIONS"
  \/ Relay.isAllowedOrigin (Relay.origin request) = true ->
  incl (Relay.corsHeaders (Relay.origin request))
       (Relay.r_headers (fst (Relay.fetch parseURL network request)))
  /\ In (allowOriginHeader (Relay.origin request))
        (Relay.r_headers (fst (Relay.fetch parseURL network request))).
Proof.
  intros H.
  assert (Hincl :
    incl (Relay.corsHeaders (Relay.origin request))
         (Relay.r_headers (fst (Relay.fetch parseURL network request)))).
  { unfold Relay.fetch.
    destruct (jseqb (Relay.method request) (str "OPTIONS")) eqn:E.
    - apply incl_refl.
    - destruct H as [H|H];
        [rewrite H in E; discriminate E|]. rewrite H. cbn [negb].
      destruct (jseqb (Relay.method request) (str "GET")); cbn [negb];
        [|apply incl_refl].
      destruct (Relay.urlParam request) as [[|c t]|];
        try (apply incl_appl, incl_refl).
      destruct (Relay.isValidCertificateUrl parseURL (c :: t));
        cbn [negb]; [|apply incl_appl, incl_refl].
      destruct (network (c :: t)) as [e|response];
        [apply incl_appl, incl_refl|].
      destruct (Relay.ok response); cbn [negb];
        [|apply incl_appl, incl_refl].
      destruct (Relay.arrayBuffer response);
        apply incl_appl, incl_refl. }
  split; [exact Hincl|]. apply Hincl. left. reflexivity.
Qed.

Lemma answers_carry_cors_witness :
  In (allowOriginHeader (Some (str "https://Wrapdf.com")))
     (Relay.r_headers
        (fst (Relay.fetch parseSample networkSample (getRequest [])))).
Proof.
  apply (proj2 (answers_carry_cors parseSample networkSample
                  (getRequest []) (or_intror eq_refl))).
Defined.

(** ** The patterns of the relay *)

Section PatternFacts.

Lemma matchK_liti_app (w : jsstring) :
  forall (w' s : jsstring) (i : nat) (pv : option N)
         (cs : list jsstring) (k : mstate -> option mstate),
    sameTextIgnoringCase w' w = true ->
    matchK (liti w) (MState (w' ++ s) i pv cs) k
    = k (MState s (i + List.length w') (lastRead w' pv) cs).
Proof.
  induction w as [|c w IH]; intros w' s i pv cs k H.
  - destruct w'; [|discriminate]. cbn. now rewrite Nat.add_0_r.
  - destruct w' as [|x w']; [discriminate|].
    cbn [sameTextIgnoringCase] in H. apply andb_true_iff in H.
    destruct H as [Hx Hw].
    cbn [liti matchK app rest]. rewrite Hx. unfold advance at 1.
    cbn [pos caps]. rewrite (IH w' s (S i) (Some x) cs k Hw).
    cbn [List.length lastRead fold_left]. rewrite Nat.add_succ_r.
    reflexivity.
Qed.

Lemma matchK_lit_app (w : jsstring) :
  forall (s : jsstring) (i : nat) (pv : option N)
         (cs : list jsstring) (k : mstate -> option mstate),
    matchK (lit w) (MState (w ++ s) i pv cs) k
    = k (MState s (i + List.length w) (lastRead w pv) cs).
Proof.
  induction w as [|c w IH]; intros s i pv cs k.
  - cbn. now rewrite Nat.add_0_r.
  - cbn [lit matchK app rest]. rewrite N.eqb_refl. unfold advance at 1.
    cbn [pos caps]. rewrite (IH s (S i) (Some c) cs k).
    cbn [List.length lastRead fold_left]. rewrite Nat.add_succ_r.
    reflexivity.
Qed.

Lemma searchFrom_unfold (r : re) (s : jsstring) (i : nat)
      (pv : option N) :
  searchFrom r s i pv
  = match matchAt r s i pv with
    | Some m => Some m
    | None =>
        match s with
        | [] => None
        | c :: s' => searchFrom r s' (S i) (Some c)
        end
    end.
Proof. destruct s; reflexivity. Qed.

(** A pattern that matches at the start of [s], wherever [s] stands, is
    found in every text that ends with [s]. *)
Lemma test_occurrence (r : re) (pre s : jsstring) :
  (forall i pv, matchAt r s i pv <> None) ->
  test r (pre ++ s) = true.
Proof.
  intros H. unfold test, search.
  assert (E : forall i pv, searchFrom r (pre ++ s) i pv <> None).
  { induction pre as [|c pre IH]; intros i pv; rewrite searchFrom_unfold.
    - cbn [app]. specialize (H i pv).
      destruct (matchAt r s i pv); [discriminate|contradiction].
    - destruct (matchAt r ((c :: pre) ++ s) i pv); [discriminate|].
      cbn [app]. apply IH. }
  specialize (E 0 None).
  destruct (searchFrom r (pre ++ s) 0 None); [reflexivity|contradiction].
Qed.

Lemma test_liti_anywhere (w pre w' post : jsstring) :
  sameTextIgnoringCase w' w = true ->
  test (liti w) (pre ++ w' ++ post) = true.
Proof.
  intros H. apply test_occurrence. intros i pv. unfold matchAt.
  rewrite (matchK_liti_app w w' post i pv [] Some H). discriminate.
Qed.

Lemma test_liti_ending (w pre w' : jsstring) :
  sameTextIgnoringCase w' w = true ->
  test (Seq (liti w) Eol) (pre ++ w') = true.
Proof.
  intros H. apply test_occurrence. intros i pv. unfold matchAt.
  cbn [matchK]. rewrite <- (app_nil_r w') at 1.
  rewrite (matchK_liti_app w w' [] i pv [] _ H). discriminate.
Qed.

Lemma includes_unfold (s p : jsstring) :
  includes s p
  = (startsWith s p
     || match s with [] => false | _ :: s' => includes s' p end).
Proof. destruct s; reflexivity. Qed.

Lemma startsWith_self (p post : jsstring) :
  startsWith (p ++ post) p = true.
Proof.
  induction p as [|c p IH]; [destruct post; reflexivity|].
  cbn [app startsWith]. now rewrite N.eqb_refl, IH.
Qed.

Lemma includes_occurrence (pre p post : jsstring) :
  includes (pre ++ p ++ post) p = true.
Proof.
  induction pre as [|c pre IH]; rewrite includes_unfold.
  - cbn [app]. now rewrite startsWith_self.
  - cbn [app]. rewrite IH. apply orb_true_r.
Qed.

Lemma test_private172 (n : nat) (r : jsstring) :
  16 <= n <= 31 ->
  test Relay.private172
       (str "172." ++ Relay.decimal n ++ str "." ++ r) = true.
Proof.
  intros H.
  assert (E : n = 16 \/ n = 17 \/ n = 18 \/ n = 19 \/ n = 20 \/ n = 21
              \/ n = 22 \/ n = 23 \/ n = 24 \/ n = 25 \/ n = 26 \/ n = 27
              \/ n = 28 \/ n = 29 \/ n = 30 \/ n = 31) by lia.
  repeat (destruct E as [-> | E]; [reflexivity|]). subst. reflexivity.
Qed.

End PatternFacts.

(** X27.  The allow-list test is a search in the whole parameter that
    ignores the case of letters: a URL that parses, has scheme http or
    https and a host that is not refused passes the validation as soon
    as [/certs/], [/ocsp], [/crl] or [caIssuers] occurs anywhere in it
    (its query included), or it ends in [.crt], [.cer] or [.pem]. *)
Theorem pattern_anywhere_accepts
        (parseURL : jsstring -> option Relay.URL)
        (targetUrl : jsstring) (url : Relay.URL)
        (pre w post : jsstring) :
  parseURL targetUrl = Some url ->
  existsb (jseqb (Relay.protocol url)) [str "http:"; str "https:"]
  = true ->
  existsb (fun domain => includes (Relay.hostname url) domain)
          Relay.BLOCKED_DOMAINS = false ->
  test Relay.private10 (Relay.hostname url) = false ->
  test Relay.private172 (Relay.hostname url) = false ->
  test Relay.private192 (Relay.hostname url) = false ->
  targetUrl = pre ++ w ++ post ->
  existsb (sameTextIgnoringCase w) anywhereTexts = true
  \/ (post = [] /\ existsb (sameTextIgnoringCase w) endingTexts = true) ->
  Relay.isValidCertificateUrl parseURL targetUrl = true.
Proof.
  intros Hp H1 H2 H3 H4 H5 Hu Hw. unfold Relay.isValidCertificateUrl.
  rewrite Hp, H1, H2, H3, H4, H5. cbn [negb orb].
  subst targetUrl. unfold Relay.ALLOWED_PATTERNS. cbn [existsb].
  destruct Hw as [Hw | [-> Hw]].
  - unfold anywhereTexts in Hw. cbn [existsb] in Hw.
    rewrite orb_false_r in Hw.
    apply orb_true_iff in Hw. destruct Hw as [Hw|Hw];
      [rewrite (test_liti_anywhere _ pre w post Hw);
       now rewrite ?orb_true_r|].
    apply orb_true_iff in Hw. destruct Hw as [Hw|Hw];
      [rewrite (test_liti_anywhere _ pre w post Hw);
       now rewrite ?orb_true_r|].
    apply orb_true_iff in Hw. destruct Hw as [Hw|Hw];
      rewrite (test_liti_anywhere _ pre w post Hw);
      now rewrite ?orb_true_r.
  - rewrite app_nil_r. unfold endingTexts in Hw. cbn [existsb] in Hw.
    rewrite orb_false_r in Hw.
    apply orb_true_iff in Hw. destruct Hw as [Hw|Hw];
      [rewrite (test_liti_ending _ pre w Hw); reflexivity|].
    apply orb_true_iff in Hw. destruct Hw as [Hw|Hw];
      rewrite (test_liti_ending _ pre w Hw);
      now rewrite ?orb_true_r.
Qed.

Lemma pattern_anywhere_accepts_witness :
  Relay.isValidCertificateUrl parseSample
    (str "https://ca.example.org/certs/root.crt") = true.
Proof.
  apply (pattern_anywhere_accepts parseSample
           (str "https://ca.example.org/certs/root.crt")
           {| Relay.protocol := str "https:";
              Relay.hostname := str "ca.example.org" |}
           (str "https://ca.example.org") (str "/certs/")
           (str "root.crt")
           eq_refl eq_refl eq_refl eq_refl eq_refl eq_refl eq_refl).
  left. reflexivity.
Defined.

(** X28.  A URL is refused, whatever else it says, when its host name
    contains [localhost], [127.0.0.1] or [0.0.0.0] anywhere, or starts
    with [10.], with [192.168.], or with [172.N.] for N from 16 to 31. *)
Theorem refused_hosts (parseURL : jsstring -> option Relay.URL)
        (targetUrl : jsstring) (url : Relay.URL) :
  parseURL targetUrl = Some url ->
  (exists pre domain post,
     In domain Relay.BLOCKED_DOMAINS
     /\ Relay.hostname url = pre ++ domain ++ post)
  \/ (exists r, Relay.hostname url = str "10." ++ r)
  \/ (exists r, Relay.hostname url = str "192.168." ++ r)
  \/ (exists n r,
        16 <= n <= 31
        /\ Relay.hostname url
           = str "172." ++ Relay.decimal n ++ str "." ++ r) ->
  Relay.isValidCertificateUrl parseURL targetUrl = false.
Proof.
  intros Hp H. unfold Relay.isValidCertificateUrl. rewrite Hp.
  destruct (existsb (jseqb (Relay.protocol url))
                    [str "http:"; str "https:"]); cbn [negb];
    [|reflexivity].
  destruct H as [(pre & d & post & Hin & Hh)
                | [[r Hh] | [[r Hh] | (n & r & Hn & Hh)]]];
    rewrite Hh.
  - assert (E : existsb (fun domain =>
                           includes (pre ++ d ++ post) domain)
                        Relay.BLOCKED_DOMAINS = true).
    { apply existsb_exists. exists d. split; [exact Hin|].
      apply includes_occurrence. }
    now rewrite E.
  - destruct (existsb _ Relay.BLOCKED_DOMAINS); [reflexivity|].
    change (test Relay.private10 (str "10." ++ r)) with true.
    reflexivity.
  - destruct (existsb _ Relay.BLOCKED_DOMAINS); [reflexivity|].
    change (test Relay.private192 (str "192.168." ++ r)) with true.
    now rewrite !orb_true_r.
  - destruct (existsb _ Relay.BLOCKED_DOMAINS); [reflexivity|].
    rewrite (test_private172 n r Hn). now rewrite !orb_true_r.
Qed.

Lemma refused_hosts_witness :
  Relay.isValidCertificateUrl parseSample
    (str "http://192.168.1.1/ca.crt") = false.
Proof.
  apply (refused_hosts parseSample (str "http://192.168.1.1/ca.crt")
           {| Relay.protocol := str "http:";
              Relay.hostname := str "192.168.1.1" |} eq_refl).
  right; right; left. exists (str "1.1"). reflexivity.
Defined.

(* ================================================================== *)
(** * The locator and the validator together *)
(* ================================================================== *)

Section BatchFacts.

Variable F : Library.

Lemma mapValidate_In (clock : nat -> Date) (pdfBytes : list N)
      (trustedCert : option Certificate) (result : Result.t) :
  forall (sigs : list ExtractedSignature) (i : nat),
    In result (mapValidate F clock i sigs pdfBytes trustedCert) ->
    exists k sig,
      In sig sigs
      /\ result
         = validateSignature F (clock k) sig pdfBytes trustedCert.
Proof.
  intros sigs. induction sigs as [|s rest IH]; intros i H;
    cbn [mapValidate In] in H; [contradiction|].
  destruct H as [<- | H].
  - exists i, s. split; [now left|reflexivity].
  - destruct (IH (S i) H) as (k & sig & Hin & E).
    exists k, sig. split; [now right|exact E].
Qed.

End BatchFacts.

(** X29.  In the batch, a result is never left [unknown] for want of a
    proper byte range: every valid result carries a range of four
    numbers, none negative, and its coverage is [full], [partial] or
    [unknown] as the end of the second span equals, precedes or exceeds
    the length of the document. *)
Theorem batch_coverage_decided (F : Library) (clock : nat -> Date)
        (pdfBytes : list N) (trustedCert : option Certificate)
        (result : Result.t) :
  In result (validatePdfSignatures F clock pdfBytes trustedCert) ->
  Result.isValid result = true ->
  let L := Z.of_nat (List.length pdfBytes) in
  exists start1 len1 start2 len2 : Z,
    Result.byteRange result = Some [start1; len1; start2; len2]
    /\ (0 <= start1 /\ 0 <= len1 /\ 0 <= start2 /\ 0 <= len2)%Z
    /\ (Result.coverageStatus result = full <-> (start2 + len2 = L)%Z)
    /\ (Result.coverageStatus result = partial <-> (start2 + len2 < L)%Z)
    /\ (Result.coverageStatus result = unknown <-> (L < start2 + len2)%Z).
Proof.
  intros Hin Hvalid L. unfold validatePdfSignatures in Hin.
  destruct (mapValidate_In F clock pdfBytes trustedCert result _ _ Hin)
    as (k & sig & Hsig & ->).
  assert (Hwf : Forall wellFormed (extractSignatures pdfBytes))
    by (unfold extractSignatures, scan; apply scan_wellFormed;
        constructor).
  rewrite Forall_forall in Hwf.
  destruct (Hwf sig Hsig) as (Hlen & Hpos & _).
  destruct (byteRange sig) as [|a [|b [|c [|d [|x t]]]]] eqn:Hrange;
    try discriminate Hlen.
  exists a, b, c, d.
  assert (Hecho :
    Result.byteRange
      (validateSignature F (clock k) sig pdfBytes trustedCert)
    = Some (byteRange sig)).
  { clear. validator_paths; cbn; past_coverage; reflexivity. }
  split; [rewrite Hecho, Hrange; reflexivity|].
  split.
  { inversion Hpos as [|? ? Ha H1]; subst.
    inversion H1 as [|? ? Hb H2]; subst.
    inversion H2 as [|? ? Hc H3]; subst.
    inversion H3 as [|? ? Hd H4]; subst. repeat split; assumption. }
  rewrite (valid_coverage F _ _ _ _ Hvalid), coverage_status, Hrange.
  fold L. cbn [Result.coverageStatus defaultResult].
  destruct (Z.eqb_spec (c + d) L) as [Heq|Hne];
    [|destruct (Z.ltb_spec (c + d) L) as [Hlt|Hge]];
    repeat split; intros; try discriminate; try lia; reflexivity.
Qed.

Lemma batch_coverage_decided_witness :
  exists start1 len1 start2 len2 : Z,
    Result.byteRange
      (validateSignature (library [aliceCert]) midTime signedRecord
         signedDocument None)
    = Some [start1; len1; start2; len2]
    /\ (0 <= start1 /\ 0 <= len1 /\ 0 <= start2 /\ 0 <= len2)%Z.
Proof.
  destruct (batch_coverage_decided (library [aliceCert])
              (fun _ => midTime) signedDocument None
              (validateSignature (library [aliceCert]) midTime
                 signedRecord signedDocument None))
    as (a & b & c & d & H1 & H2 & _).
  - vm_compute. left. reflexivity.
  - vm_compute. reflexivity.
  - exists a, b, c, d. split; assumption.
Defined.
